(** * sync-drive: one-way synchronisation from Google Drive to Instill Catalog

    A shallow embedding of [helpers.py], [main.py], [config.py] and of the
    stand-alone variant [script.py], followed by the properties of the
    synchronisation pipeline.

    Modelling conventions.
    - Decoded JSON documents (ledger files, Catalog responses) are values of
      [json]; the duck-typed operations the code performs on them ([.get],
      [[0]], [in], [.append], truthiness) are written out with the
      exception Python raises at the wrong type.
    - The working directory is one name space, a [gmap] from relative
      paths to files: the checkpoint file, the three ledger files and the
      transient downloads all live in it, as in the program. A file has
      an identity (its inode) besides its content: writing to an existing
      path keeps the file, removing the path and writing again makes a
      new one.
    - The directory holds regular files only, under their names as the
      program spells them, and two spellings are two files. A file
      system tells two spellings apart when both are plain names that
      differ beyond the case of their letters ([apart], below): the
      properties that speak of what the files hold ask that of the names
      that come from Drive. With regular files only, [os.remove] fails
      on a missing file and on nothing else.
    - Texts are strings of one-byte characters: [strip] and the
      text-mode read are those of ASCII text without carriage return
      ([ascii_text], below).
    - Everything outside the process (Drive, Catalog, the clock) is an
      oracle that sees the history of events so far. The Drive client is
      typed: a listing is a list of descriptors, the metadata of a file a
      record, a chunked transfer its final result.
    - A computation is a function from the state to a result and a new
      state; a raised exception keeps the effects made before it.
    - The local variables that the per-file handler reads are part of the
      state, with "unbound" as a value, because they survive from one
      iteration of the loop to the next.
    - Left out: the OAuth preamble of [main] (lines 31-44, which every
      call of [main] runs before its [try], and which may write
      [token.json] or raise), logging (it changes nothing the program
      reads), JSON numbers that are not integers, and failures of
      [open(..., 'w')] on the working directory. [run] is the suite of
      the outer [try] and the restarts it causes; the limit on nested
      calls is met at a call of [main], never inside a pass. *)

From stdpp Require Import base option list strings gmap.
From Stdlib Require Import ZArith Lia.

Open Scope string_scope.
Open Scope list_scope.
Set Warnings "-register-all".

(** ** Python values and exceptions *)

Inductive json :=
| JNull
| JBool (b : bool)
| JNum (n : Z)
| JStr (s : string)
| JArr (l : list json)
| JObj (kv : list (string * json)).

Inductive exn :=
| UnboundLocalError
| AttributeError
| TypeError
| IndexError
| KeyError
| JSONDecodeError
| FileNotFoundError
| HTTPError
| RecursionError
| RemoteError (msg : string).

Inductive res (A : Type) :=
| Ok (a : A)
| Raise (e : exn).
Arguments Ok {A} a.
Arguments Raise {A} e.

(** [bool(x)] on a decoded JSON value. *)
Definition truthy (v : json) : bool :=
  match v with
  | JNull => false
  | JBool b => b
  | JNum n => negb (n =? 0)%Z
  | JStr s => negb (String.eqb s "")
  | JArr l => match l with [] => false | _ => true end
  | JObj kv => match kv with [] => false | _ => true end
  end.

Fixpoint assoc (k : string) (kv : list (string * json)) : option json :=
  match kv with
  | [] => None
  | (k', v) :: kv' => if String.eqb k' k then Some v else assoc k kv'
  end.

(** [d.get(key, dflt)]: only a dict has the method. *)
Definition py_get (d : json) (key : string) (dflt : json) : res json :=
  match d with
  | JObj kv => Ok (default dflt (assoc key kv))
  | _ => Raise AttributeError
  end.

(** [x[0]]: first element of a list, first character of a string; a dict
    decoded from JSON has string keys only, so the key [0] is missing. *)
Definition py_index0 (x : json) : res json :=
  match x with
  | JArr (v :: _) => Ok v
  | JArr [] => Raise IndexError
  | JStr (String c _) => Ok (JStr (String c ""))
  | JStr "" => Raise IndexError
  | JObj _ => Raise KeyError
  | _ => Raise TypeError
  end.

Definition is_str (s : string) (v : json) : bool :=
  match v with
  | JStr s' => String.eqb s' s
  | _ => false
  end.

(** [s in c] for a string [s]: list membership by [==], substring test on
    a string, key test on a dict, [TypeError] on anything else. *)
Definition py_in (s : string) (c : json) : res bool :=
  match c with
  | JArr l => Ok (existsb (is_str s) l)
  | JStr t => Ok (bool_decide (is_Some (String.index 0 s t)))
  | JObj kv => Ok (bool_decide (is_Some (assoc s kv)))
  | _ => Raise TypeError
  end.

(** [c.append(v)]: only a list has the method. *)
Definition py_append (c : json) (v : json) : res json :=
  match c with
  | JArr l => Ok (JArr (l ++ [v]))
  | _ => Raise AttributeError
  end.

(** ** config.py *)

Definition NAMESPACE_ID := "george_strong".
Definition KB_ID := "google-test".
Definition DOMAIN := "api.instill.tech".
Definition UPLOAD_FILES_URL :=
  "https://" +:+ DOMAIN +:+ "/v1alpha/namespaces/" +:+ NAMESPACE_ID
    +:+ "/catalogs/" +:+ KB_ID +:+ "/files".
Definition PROCESS_FILES_URL :=
  "https://" +:+ DOMAIN +:+ "/v1alpha/catalogs/files/processAsync".
Definition TIME_FILE_PATH := "modified_time.txt".
Definition UPLOADED_FILE_PATH := "uploaded_files.json".
Definition FAILED_FILE_PATH := "failure_files.json".
Definition UNSUPPORTED_FILE_PATH := "unsupported_type_files.json".

(** ** The world *)

(** What a local file holds. [FJson v] is a file whose bytes are the
    serialisation of [v] (what [json.dump] wrote, or a download that
    happens to be a JSON document); [FText s] is any other content, on
    which [json.load] raises. *)
Inductive fdata :=
| FText (s : string)
| FJson (v : json).

Inductive media_request :=
| ExportMedia (fileId mimeType : string)
| GetMedia (fileId : string).

Record drive_item := {
  item_id : string;
  item_name : string;
  item_modifiedTime : string;
}.

Record drive_meta := {
  meta_mimeType : string;
  meta_name : string;
}.

(** How the chunked download into the freshly opened local file ends:
    the file could not be opened, the transfer raised after writing some
    content, or all chunks arrived. *)
Inductive dl_result :=
| DlOpenFail (e : exn)
| DlFail (partial : fdata) (e : exn)
| DlDone (content : fdata).

Record datetime := {
  year : nat; month : nat; day : nat;
  hour : nat; minute : nat; second : nat; microsecond : nat;
}.

Record http_request := {
  rq_method : string;
  rq_url : string;
  rq_json : option json;
}.

Record http_response := {
  status_code : Z;
  body : option json;   (* [None]: the body is not a JSON document *)
}.

(** Observable events, oldest first. [EvWrite] is a text-mode
    [open(path, 'w')] by one of the helpers, [EvDownload] the binary
    write of a transfer into the file with inode [ino]. *)
Inductive event :=
| EvBuild
| EvNow
| EvList (q : string)
| EvGet (fileId : string)
| EvDownload (rq : media_request) (path : string) (ino : nat)
| EvHttp (rq : http_request)
| EvWrite (path : string) (d : fdata)
| EvRemove (path : string).

(** The local variables of [main] that outlive an iteration of the loop
    and are read by the per-file handler; [None] is "not yet bound". *)
Record locals := {
  file_id : option string;
  file_name : option string;
  local_file_name : option string;
}.

Definition no_locals : locals :=
  {| file_id := None; file_name := None; local_file_name := None |}.

Record lfile := {
  ino : nat;
  data : fdata;
}.

Record state := {
  fs : gmap string lfile;
  next_ino : nat;
  trace : list event;
  frame : locals;
}.

Definition log (e : event) (st : state) : state :=
  {| fs := fs st; next_ino := next_ino st; trace := trace st ++ [e];
     frame := frame st |}.

Definition with_frame (f : locals) (st : state) : state :=
  {| fs := fs st; next_ino := next_ino st; trace := trace st; frame := f |}.

(** The inode behind [path] once it is opened for writing: the existing
    file if there is one, a fresh one otherwise. *)
Definition inode_for (path : string) (st : state) : nat :=
  match fs st !! path with
  | Some f => ino f
  | None => next_ino st
  end.

Definition put (path : string) (d : fdata) (st : state) : state :=
  {| fs := <[path := {| ino := inode_for path st; data := d |}]> (fs st);
     next_ino := match fs st !! path with
                 | Some _ => next_ino st
                 | None => S (next_ino st)
                 end;
     trace := trace st; frame := frame st |}.

Definition unlink (path : string) (st : state) : state :=
  {| fs := delete path (fs st); next_ino := next_ino st; trace := trace st;
     frame := frame st |}.

(** The content stored under a path. *)
Definition content (st : state) (path : string) : option fdata :=
  data <$> fs st !! path.

(** ** Computations *)

Definition M (A : Type) : Type := state → res A * state.

Definition ret {A} (a : A) : M A := λ st, (Ok a, st).
Definition raise {A} (e : exn) : M A := λ st, (Raise e, st).
Definition bind {A B} (m : M A) (k : A → M B) : M B :=
  λ st, match m st with
        | (Ok a, st') => k a st'
        | (Raise e, st') => (Raise e, st')
        end.
Definition lift {A} (r : res A) : M A := λ st, (r, st).

(** [try: m except Exception as e: h e] *)
Definition try_except {A} (m : M A) (h : exn → M A) : M A :=
  λ st, match m st with
        | (Ok a, st') => (Ok a, st')
        | (Raise e, st') => h e st'
        end.

Notation "'let*' x := m 'in' k" := (bind m (λ x, k))
  (at level 10, x name, m at level 100, k at level 200,
   format "'[v' 'let*'  x  :=  m  'in' '/' k ']'").
Notation "m ;; k" := (bind m (λ _, k))
  (at level 100, k at level 200, right associativity,
   format "'[v' m  ;; '/' k ']'").

(** [os.path.exists(path)] *)
Definition path_exists (path : string) : M bool :=
  λ st, (Ok (bool_decide (is_Some (fs st !! path))), st).

(** [with open(path, 'w') as f: f.write(...)] / [json.dump(..., f)] *)
Definition write_file (path : string) (d : fdata) : M unit :=
  λ st, (Ok tt, log (EvWrite path d) (put path d st)).

(** [os.remove(path)], in a directory of regular files: it fails when
    no file has the name. *)
Definition os_remove (path : string) : M unit :=
  λ st, match fs st !! path with
        | Some _ => (Ok tt, log (EvRemove path) (unlink path st))
        | None => (Raise FileNotFoundError, st)
        end.

Definition read_file (path : string) : M fdata :=
  λ st, match fs st !! path with
        | Some f => (Ok (data f), st)
        | None => (Raise FileNotFoundError, st)
        end.

(** Assignments to the three variables. *)
Definition set_file_id (v : string) : M unit :=
  λ st, (Ok tt,
         with_frame {| file_id := Some v;
                       file_name := file_name (frame st);
                       local_file_name := local_file_name (frame st) |} st).

Definition set_file_name (v : string) : M unit :=
  λ st, (Ok tt,
         with_frame {| file_id := file_id (frame st);
                       file_name := Some v;
                       local_file_name := local_file_name (frame st) |} st).

Definition set_local_file_name (v : string) : M unit :=
  λ st, (Ok tt,
         with_frame {| file_id := file_id (frame st);
                       file_name := file_name (frame st);
                       local_file_name := Some v |} st).

(** Reading a local variable that was never assigned raises. *)
Definition get_local (var : locals → option string) : M string :=
  λ st, match var (frame st) with
        | Some v => (Ok v, st)
        | None => (Raise UnboundLocalError, st)
        end.

Definition new_frame : M unit := λ st, (Ok tt, with_frame no_locals st).

(** ** The environment *)

Record env := {
  json_dumps : json → string;
  b64encode : string → string;
  datetime_now : list event → datetime;
  drive_build : list event → option exn;
  drive_list : list event → string → res (list drive_item);
  drive_get : list event → string → res drive_meta;
  drive_download : list event → media_request → string → dl_result;
  http_send : list event → http_request → res http_response;
}.

(** ** helpers.py *)

Definition mime_type_to_file_type : list (string * string) :=
  [ ("application/pdf", "FILE_TYPE_PDF");
    ("text/plain", "FILE_TYPE_TEXT");
    ("text/markdown", "FILE_TYPE_MARKDOWN");
    ("image/png", "FILE_TYPE_PNG");
    ("image/jpeg", "FILE_TYPE_JPEG");
    ("image/jpg", "FILE_TYPE_JPG");
    ("text/html", "FILE_TYPE_HTML");
    ("application/vnd.openxmlformats-officedocument.wordprocessingml.document",
     "FILE_TYPE_DOCX");
    ("application/msword", "FILE_TYPE_DOC");
    ("application/vnd.ms-powerpoint", "FILE_TYPE_PPT");
    ("application/vnd.openxmlformats-officedocument.presentationml.presentation",
     "FILE_TYPE_PPTX");
    ("application/vnd.ms-excel", "FILE_TYPE_XLS");
    ("application/vnd.openxmlformats-officedocument.spreadsheetml.sheet",
     "FILE_TYPE_XLSX") ].

Fixpoint dict_get (k : string) (d : list (string * string)) (dflt : string)
  : string :=
  match d with
  | [] => dflt
  | (k', v) :: d' => if String.eqb k' k then v else dict_get k d' dflt
  end.

Definition get_file_type (mime_type : string) : string :=
  dict_get mime_type mime_type_to_file_type "none".

(** *** Time stamps *)

Definition digit (n : nat) : Ascii.ascii := Ascii.ascii_of_nat (48 + n mod 10).

(** [n] in decimal on exactly [width] digits, zero padded (the fields of
    a [datetime] fit their widths: the year is at most 9999). *)
Fixpoint zpad (width n : nat) : string :=
  match width with
  | 0 => ""
  | S w => zpad w (n / 10) +:+ String (digit n) ""
  end.

(** [dt.strftime('%Y-%m-%dT%H:%M:%S.%f')] *)
Definition strftime (dt : datetime) : string :=
  zpad 4 (year dt) +:+ "-" +:+ zpad 2 (month dt) +:+ "-" +:+ zpad 2 (day dt)
  +:+ "T" +:+ zpad 2 (hour dt) +:+ ":" +:+ zpad 2 (minute dt) +:+ ":"
  +:+ zpad 2 (second dt) +:+ "." +:+ zpad 6 (microsecond dt).

(** [s[:-3]] *)
Definition drop_last3 (s : string) : string :=
  String.substring 0 (String.length s - 3) s.

Definition format_time (dt : datetime) : string :=
  drop_last3 (strftime dt) +:+ "Z".

(** [c.isspace()] on the one-byte characters: the white space of
    ASCII. *)
Definition isspace (c : Ascii.ascii) : bool :=
  let n := Ascii.nat_of_ascii c in
  ((9 <=? n)%nat && (n <=? 13)%nat) || ((28 <=? n)%nat && (n <=? 32)%nat).

Fixpoint lstrip (s : string) : string :=
  match s with
  | "" => ""
  | String c s' => if isspace c then lstrip s' else s
  end.

Fixpoint rstrip (s : string) : string :=
  match s with
  | "" => ""
  | String c s' =>
      match rstrip s' with
      | "" => if isspace c then "" else String c ""
      | r => String c r
      end
  end.

(** [s.strip()] on ASCII text. *)
Definition strip (s : string) : string := rstrip (lstrip s).

Section Helpers.
Variable E : env.

(** The text a file yields when read in text mode. *)
Definition text_of (d : fdata) : string :=
  match d with
  | FText s => s
  | FJson v => json_dumps E v
  end.

Definition get_current_time_formatted : M string :=
  λ st, (Ok (format_time (datetime_now E (trace st))), log EvNow st).

Definition save_modified_time_to_file (modified_time : string) : M unit :=
  write_file TIME_FILE_PATH (FText modified_time).

Definition read_modified_time_from_file : M (option string) :=
  let* ex := path_exists TIME_FILE_PATH in
  if ex then
    let* d := read_file TIME_FILE_PATH in
    ret (Some (strip (text_of d)))
  else ret None.

Definition json_load (d : fdata) : res json :=
  match d with
  | FJson v => Ok v
  | FText _ => Raise JSONDecodeError
  end.

Definition load_uploaded_files (file_path : string) : M json :=
  let* ex := path_exists file_path in
  if ex then
    let* d := read_file file_path in
    let* data := lift (json_load d) in
    lift (py_get data "data" (JArr []))
  else ret (JArr []).

Definition save_uploaded_files (uploaded_files : json) (file_path : string)
  : M unit :=
  write_file file_path (FJson (JObj [("data", uploaded_files)])).

Definition append_file_id (file_id : string) (file_path : string) : M unit :=
  let* uploaded_files := load_uploaded_files file_path in
  let* present := lift (py_in file_id uploaded_files) in
  let* uploaded_files :=
    (if negb present
     then lift (py_append uploaded_files (JStr file_id))
     else ret uploaded_files) in
  save_uploaded_files uploaded_files file_path.

Definition process_file_data (file_path file_type : string) : M json :=
  let* d := read_file file_path in
  ret (JObj [("name", JStr file_path); ("type", JStr file_type);
             ("content", JStr (b64encode E (text_of d)))]).

(** [requests.request(...)]: one exchange with the Catalog. *)
Definition requests_request (rq : http_request) : M http_response :=
  λ st, (http_send E (trace st) rq, log (EvHttp rq) st).

(** [response.raise_for_status()] *)
Definition raise_for_status (r : http_response) : M unit :=
  if ((400 <=? status_code r) && (status_code r <? 600))%Z
  then raise HTTPError else ret tt.

(** [response.json()] *)
Definition response_json (r : http_response) : M json :=
  match body r with
  | Some v => ret v
  | None => raise JSONDecodeError
  end.

Definition call_catalog_api (url method : string) (data : option json)
    (name : string) : M json :=
  let* response :=
    requests_request {| rq_method := method; rq_url := url; rq_json := data |} in
  raise_for_status response ;;
  response_json response.

End Helpers.

(** ** script.py

    [script.py] repeats the configuration, every helper and [main] of the
    three-module variant word for word (only the constants are spelled in
    lower case); the one function whose body differs is
    [call_catalog_api], embedded here. The rest is shared below. *)

Module Script.
Section Script.
Variable E : env.

(** The [if]/[elif] chain binds [response] only for the four verbs;
    [GET] and [DELETE] send no body; no status check follows. *)
Definition call_catalog_api (url method : string) (data : option json)
    (name : string) : M json :=
  let* response :=
    (if String.eqb method "GET" then
       let* r := requests_request E
         {| rq_method := "GET"; rq_url := url; rq_json := None |} in
       ret (Some r)
     else if String.eqb method "POST" then
       let* r := requests_request E
         {| rq_method := "POST"; rq_url := url; rq_json := data |} in
       ret (Some r)
     else if String.eqb method "PUT" then
       let* r := requests_request E
         {| rq_method := "PUT"; rq_url := url; rq_json := data |} in
       ret (Some r)
     else if String.eqb method "DELETE" then
       let* r := requests_request E
         {| rq_method := "DELETE"; rq_url := url; rq_json := None |} in
       ret (Some r)
     else ret None) in
  match response with
  | Some r => response_json r
  | None => raise UnboundLocalError
  end.

End Script.
End Script.

(** ** main.py: the orchestrator

    The body of [main] from its outer [try] on (credential loading, which
    precedes it, is outside the model). It is parametrised by the
    Catalog client so that both variants instantiate it. *)

Definition EDITOR_PREFIX := "application/vnd.google-apps.".
Definition FOLDER_MIME := "application/vnd.google-apps.folder".

(** Line 81: the path of the transient local copy. *)
Definition local_name (file_metadata : drive_meta) : string :=
  if String.prefix EDITOR_PREFIX (meta_mimeType file_metadata)
  then meta_name file_metadata +:+ ".pdf"
  else meta_name file_metadata.

(** Lines 87-93: an editor document is exported as PDF, and [mime_type]
    is reassigned to the export format; anything else is fetched as is. *)
Definition export_mime (mime_type : string) : string :=
  if String.prefix EDITOR_PREFIX mime_type then "application/pdf"
  else mime_type.

Definition media_request_for (fileId mime_type : string) : media_request :=
  if String.prefix EDITOR_PREFIX mime_type
  then ExportMedia fileId (export_mime mime_type)
  else GetMedia fileId.

Section Orchestrator.
Variable E : env.
Variable catalog : string → string → option json → string → M json.

(** [build("drive", "v3", credentials=creds)] *)
Definition build : M unit :=
  λ st, (match drive_build E (trace st) with
         | Some e => Raise e
         | None => Ok tt
         end, log EvBuild st).

(** [service.files().list(..., q=f"modifiedTime >= '{t}'").execute()]
    followed by [results.get("files", [])]. *)
Definition files_list (query_modified_time : string) : M (list drive_item) :=
  λ st, (drive_list E (trace st) query_modified_time,
         log (EvList query_modified_time) st).

(** [service.files().get(fileId=..., fields='mimeType, name').execute()] *)
Definition files_get (fileId : string) : M drive_meta :=
  λ st, (drive_get E (trace st) fileId, log (EvGet fileId) st).

(** The [with io.FileIO(local, 'wb')] block: the file is created (or
    truncated) and the chunks are written until done or an exception.
    The file is the one of the name [local] as it is spelt. *)
Definition download (request : media_request) (local : string) : M unit :=
  λ st, match drive_download E (trace st) request local with
        | DlOpenFail e => (Raise e, st)
        | DlFail partial e =>
            (Raise e,
             log (EvDownload request local (inode_for local st))
               (put local partial st))
        | DlDone content =>
            (Ok tt,
             log (EvDownload request local (inode_for local st))
               (put local content st))
        end.

(** Lines 102-130: transfer, upload, trigger, record. Every [continue]
    ends the suite. *)
Definition upload_and_process (file_id local file_type : string)
    (request : media_request) : M unit :=
  download request local ;;
  let* file_data := process_file_data E local file_type in
  let* uploaded_file :=
    catalog UPLOAD_FILES_URL "POST" (Some file_data) "Upload Files" in
  let* file := lift (py_get uploaded_file "file" (JObj [])) in
  let* file_uid := lift (py_get file "fileUid" JNull) in
  if negb (truthy file_uid) then
    append_file_id file_id FAILED_FILE_PATH ;;
    os_remove local
  else
  let* process_data :=
    catalog PROCESS_FILES_URL "POST"
      (Some (JObj [("fileUids", JArr [file_uid])])) "Process Files" in
  let* files := lift (py_get process_data "files" (JArr [JObj []])) in
  let* first := lift (py_index0 files) in
  let* process_status := lift (py_get first "processStatus" JNull) in
  if negb (truthy process_status) then
    append_file_id file_id FAILED_FILE_PATH ;;
    os_remove local
  else
  os_remove local ;;
  append_file_id file_id UPLOADED_FILE_PATH.

(** Lines 70-130: the [try] suite of one iteration. *)
Definition item_body (item : drive_item) : M unit :=
  set_file_id (item_id item) ;;
  let* uploaded := load_uploaded_files UPLOADED_FILE_PATH in
  let* seen := lift (py_in (item_id item) uploaded) in
  if seen then ret tt else
  let* file_metadata := files_get (item_id item) in
  let mime_type := meta_mimeType file_metadata in
  set_file_name (meta_name file_metadata) ;;
  let local := local_name file_metadata in
  set_local_file_name local ;;
  if String.eqb mime_type FOLDER_MIME then ret tt else
  let request := media_request_for (item_id item) mime_type in
  let file_type := get_file_type (export_mime mime_type) in
  if String.eqb file_type "none" then
    append_file_id (item_id item) UNSUPPORTED_FILE_PATH
  else upload_and_process (item_id item) local file_type request.

(** Lines 132-137: the per-file handler. Its first statement formats
    [file_name] and [file_id] into the log message, its second tests
    [local_file_name]. *)
Definition item_handler (error : exn) : M unit :=
  get_local file_name ;;
  get_local file_id ;;
  let* local := get_local local_file_name in
  let* ex := path_exists local in
  if ex then os_remove local else ret tt.

Definition process_item (item : drive_item) : M unit :=
  try_except (item_body item) item_handler.

(** [for item in items: ...] *)
Fixpoint for_items (items : list drive_item) : M unit :=
  match items with
  | [] => ret tt
  | item :: rest => process_item item ;; for_items rest
  end.

(** Lines 48-52. [not query_modified_time] holds for [None] and for the
    empty string. *)
Definition fresh_checkpoint : M string :=
  let* now := get_current_time_formatted E in
  save_modified_time_to_file now ;;
  ret now.

Definition resolve_checkpoint : M string :=
  let* query_modified_time := read_modified_time_from_file E in
  match query_modified_time with
  | Some t => if String.eqb t "" then fresh_checkpoint else ret t
  | None => fresh_checkpoint
  end.

(** Lines 47-137: the suite of the outer [try]. *)
Definition run_once : M unit :=
  build ;;
  let* query_modified_time := resolve_checkpoint in
  let* items := files_list query_modified_time in
  match items with
  | [] => ret tt
  | _ => for_items items
  end.

(** [main()]: any exception of the suite is logged and [main] calls
    itself. [depth] is the number of nested calls the interpreter still
    allows; when none is left the call raises [RecursionError], which
    leaves through the handlers of all the callers. Each call has fresh
    local variables. *)
Fixpoint run (depth : nat) : M unit :=
  match depth with
  | 0 => raise RecursionError
  | S d => new_frame ;; try_except run_once (λ _, run d)
  end.

End Orchestrator.

Definition main (E : env) (depth : nat) : M unit :=
  run E (call_catalog_api E) depth.

Definition script_main (E : env) (depth : nat) : M unit :=
  run E (Script.call_catalog_api E) depth.

(** The set a ledger file denotes, as [load_uploaded_files] reads it. *)
Definition ledger (file_path : string) (st : state) : res json :=
  fst (load_uploaded_files file_path st).

(** ** Vocabulary of the properties *)

(** The file system is well formed: inodes in use are below the next
    free one, and no two paths share a file. *)
Definition wf_fs (st : state) : Prop :=
  (∀ p f, fs st !! p = Some f → ino f < next_ino st)
  ∧ (∀ p q f g, fs st !! p = Some f → fs st !! q = Some g →
                ino f = ino g → p = q).

(** The file with inode [i] no longer exists. *)
Definition unlinked (st : state) (i : nat) : Prop :=
  i < next_ino st ∧ ∀ p f, fs st !! p = Some f → ino f ≠ i.

(** No file that a transfer wrote into exists. *)
Definition no_transient (st : state) : Prop :=
  ∀ rq path i, EvDownload rq path i ∈ trace st → unlinked st i.

(** Between two iterations: a well-formed file system that holds no
    transferred file. *)
Definition tidy (st : state) : Prop := wf_fs st ∧ no_transient st.

(** While a transfer is under way: the file with inode [i] is at
    [local], and every other transferred file is gone. *)
Definition holding (local : string) (i : nat) (st : state) : Prop :=
  wf_fs st
  ∧ (∀ rq p j, EvDownload rq p j ∈ trace st → j = i ∨ unlinked st j)
  ∧ ∃ f, fs st !! local = Some f ∧ ino f = i.

(** The three handler variables are bound, the last one to [local]. *)
Definition bound (local : string) (st : state) : Prop :=
  is_Some (file_id (frame st)) ∧ is_Some (file_name (frame st))
  ∧ local_file_name (frame st) = Some local.

(** Effects, named. *)
Definition removed (path : string) (st : state) : state :=
  log (EvRemove path) (unlink path st).

Definition fetched (rq : media_request) (path : string) (d : fdata)
    (st : state) : state :=
  log (EvDownload rq path (inode_for path st)) (put path d st).

Definition sent (rq : http_request) (st : state) : state :=
  log (EvHttp rq) st.

Definition ledger_doc (v : json) : fdata := FJson (JObj [("data", v)]).

Definition saved (path : string) (v : json) (st : state) : state :=
  log (EvWrite path (ledger_doc v)) (put path (ledger_doc v) st).

(** The states in which the guarded transfer stage (lines 102-137) can
    leave the world, one constructor per way through it. *)
Inductive transfer_outcome (local : string) (rq : media_request)
    (st : state) : state → Prop :=
| out_not_opened :
    fs st !! local = None →
    transfer_outcome local rq st st
| out_not_opened_removed :
    is_Some (fs st !! local) →
    transfer_outcome local rq st (removed local st)
| out_fetch_exception d :
    transfer_outcome local rq st (removed local (fetched rq local d st))
| out_upload_exception d up :
    transfer_outcome local rq st
      (removed local (sent up (fetched rq local d st)))
| out_upload_failed d up v :
    transfer_outcome local rq st
      (removed local (saved FAILED_FILE_PATH v
                        (sent up (fetched rq local d st))))
| out_process_exception d up pr :
    transfer_outcome local rq st
      (removed local (sent pr (sent up (fetched rq local d st))))
| out_process_failed d up pr v :
    transfer_outcome local rq st
      (removed local (saved FAILED_FILE_PATH v
                        (sent pr (sent up (fetched rq local d st)))))
| out_uploaded d up pr v :
    transfer_outcome local rq st
      (saved UPLOADED_FILE_PATH v
         (removed local (sent pr (sent up (fetched rq local d st))))).

(** The states in which the per-file handler (lines 132-137) can leave
    the world: it fails on an unbound variable, finds nothing to remove,
    or removes the file its [local_file_name] names. *)
Inductive handler_outcome (st : state) : res unit → state → Prop :=
| h_unbound :
    file_name (frame st) = None ∨ file_id (frame st) = None
    ∨ local_file_name (frame st) = None →
    handler_outcome st (Raise UnboundLocalError) st
| h_nothing l :
    local_file_name (frame st) = Some l →
    fs st !! l = None →
    handler_outcome st (Ok tt) st
| h_removed l :
    local_file_name (frame st) = Some l →
    is_Some (fs st !! l) →
    handler_outcome st (Ok tt) (removed l st).

(** The state once [file_id] is assigned (line 72). *)
Definition entered (item : drive_item) (st : state) : state :=
  with_frame {| file_id := Some (item_id item);
                file_name := file_name (frame st);
                local_file_name := local_file_name (frame st) |} st.

(** The state once the metadata arrived and [file_name] and
    [local_file_name] are assigned (lines 78-81). *)
Definition inspected (item : drive_item) (m : drive_meta) (st : state)
  : state :=
  with_frame {| file_id := Some (item_id item);
                file_name := Some (meta_name m);
                local_file_name := Some (local_name m) |}
    (log (EvGet (item_id item)) st).

(** Line 74: [file_id in load_uploaded_files(UPLOADED_FILE_PATH)]. *)
Definition already_uploaded (item : drive_item) (st : state) : res bool :=
  match ledger UPLOADED_FILE_PATH st with
  | Ok c => py_in (item_id item) c
  | Raise e => Raise e
  end.

(** All the ways through one iteration of the loop, with what decided
    them, the result the iteration hands to the loop and the state it
    leaves. *)
Inductive item_outcome (E : env) (item : drive_item) (st : state)
  : res unit → state → Prop :=
| io_ledger_exception e r st' :
    already_uploaded item st = Raise e →
    handler_outcome (entered item st) r st' →
    item_outcome E item st r st'
| io_skipped :
    already_uploaded item st = Ok true →
    item_outcome E item st (Ok tt) (entered item st)
| io_metadata_exception e r st' :
    already_uploaded item st = Ok false →
    drive_get E (trace st) (item_id item) = Raise e →
    handler_outcome (log (EvGet (item_id item)) (entered item st)) r st' →
    item_outcome E item st r st'
| io_folder m :
    already_uploaded item st = Ok false →
    drive_get E (trace st) (item_id item) = Ok m →
    meta_mimeType m = FOLDER_MIME →
    item_outcome E item st (Ok tt) (inspected item m st)
| io_unsupported m v :
    already_uploaded item st = Ok false →
    drive_get E (trace st) (item_id item) = Ok m →
    meta_mimeType m ≠ FOLDER_MIME →
    get_file_type (export_mime (meta_mimeType m)) = "none" →
    item_outcome E item st (Ok tt)
      (saved UNSUPPORTED_FILE_PATH v (inspected item m st))
| io_unsupported_exception m r st' :
    already_uploaded item st = Ok false →
    drive_get E (trace st) (item_id item) = Ok m →
    meta_mimeType m ≠ FOLDER_MIME →
    get_file_type (export_mime (meta_mimeType m)) = "none" →
    handler_outcome (inspected item m st) r st' →
    item_outcome E item st r st'
| io_transfer m st' :
    already_uploaded item st = Ok false →
    drive_get E (trace st) (item_id item) = Ok m →
    meta_mimeType m ≠ FOLDER_MIME →
    get_file_type (export_mime (meta_mimeType m)) ≠ "none" →
    transfer_outcome (local_name m)
      (media_request_for (item_id item) (meta_mimeType m))
      (inspected item m st) st' →
    item_outcome E item st (Ok tt) st'.

(** Orderings inside the events of one iteration. *)






(** An event that is not a transfer. *)
Definition quiet (e : event) : Prop :=
  match e with
  | EvDownload _ _ _ => False
  | _ => True
  end.

(** Events of the start of a run: client construction, clock,
    checkpoint file, listing. *)
Definition bookkeeping (e : event) : Prop :=
  match e with
  | EvBuild | EvNow | EvList _ => True
  | EvWrite path (FText _) => path = TIME_FILE_PATH
  | _ => False
  end.

(** The checkpoint as [read_modified_time_from_file] sees it. *)
Definition checkpoint (E : env) (st : state) : option string :=
  (λ d, strip (text_of E d)) <$> content st TIME_FILE_PATH.

Definition current_time (E : env) (st : state) : string :=
  format_time (datetime_now E (trace st)).

(** The state after lines 51-52 computed and saved the time [t]. *)
Definition initialised (t : string) (st : state) : state :=
  log (EvWrite TIME_FILE_PATH (FText t))
    (put TIME_FILE_PATH (FText t) (log EvNow st)).

(** The Catalog never answers with a status that [raise_for_status]
    rejects (400 to 599). *)
Definition no_http_error (E : env) : Prop :=
  ∀ h rq r, http_send E h rq = Ok r →
    (status_code r < 400 ∨ 600 ≤ status_code r)%Z.

(** The URLs of the HTTP exchanges of a trace, in order. *)
Definition http_urls (tr : list event) : list string :=
  omap (λ e, match e with EvHttp rq => Some (rq_url rq) | _ => None end) tr.

(** ** Scenarios *)

Definition sample_time : datetime :=
  {| year := 2024; month := 5; day := 17;
     hour := 8; minute := 30; second := 15; microsecond := 4000 |}.

Definition item_f1 : drive_item :=
  {| item_id := "f1"; item_name := "report.pdf";
     item_modifiedTime := "2024-05-17T08:00:00.000Z" |}.

Definition item_f2 : drive_item :=
  {| item_id := "f2"; item_name := "archive.zip";
     item_modifiedTime := "2024-05-17T08:10:00.000Z" |}.

Definition item_f3 : drive_item :=
  {| item_id := "f3"; item_name := "notes";
     item_modifiedTime := "2024-05-17T08:20:00.000Z" |}.

Definition meta_pdf : drive_meta :=
  {| meta_mimeType := "application/pdf"; meta_name := "report.pdf" |}.

Definition meta_zip : drive_meta :=
  {| meta_mimeType := "application/zip"; meta_name := "archive.zip" |}.

Definition meta_doc : drive_meta :=
  {| meta_mimeType := "application/vnd.google-apps.document";
     meta_name := "notes" |}.

Definition drive_of (fileId : string) : res drive_meta :=
  if String.eqb fileId "f1" then Ok meta_pdf
  else if String.eqb fileId "f2" then Ok meta_zip
  else Ok meta_doc.

Definition upload_ok : http_response :=
  {| status_code := 200;
     body := Some (JObj [("file", JObj [("fileUid", JStr "u1")])]) |}.

Definition process_ok : http_response :=
  {| status_code := 200;
     body := Some (JObj [("files",
                          JArr [JObj [("processStatus", JStr "done")]])]) |}.

(** A Catalog that answers the upload endpoint with [up] and any other
    endpoint with [pr]. *)
Definition respond (up pr : http_response) (rq : http_request)
  : res http_response :=
  if String.eqb (rq_url rq) UPLOAD_FILES_URL then Ok up else Ok pr.

(** A world whose answers do not depend on the history. *)
Definition scenario (items : list drive_item)
    (get : string → res drive_meta) (dl : dl_result)
    (up pr : http_response) : env :=
  {| json_dumps := λ _, "{}";
     b64encode := λ s, s;
     datetime_now := λ _, sample_time;
     drive_build := λ _, None;
     drive_list := λ _ _, Ok items;
     drive_get := λ _ fileId, get fileId;
     drive_download := λ _ _ _, dl;
     http_send := λ _ rq, respond up pr rq |}.

(** The end-to-end scenario of the specification: a PDF and a ZIP. *)
Definition E_spec : env :=
  scenario [item_f1; item_f2] drive_of (DlDone (FText "%PDF-1.7"))
    upload_ok process_ok.

(** The metadata request of the first listed file fails. *)
Definition E_metadata_down : env :=
  scenario [item_f1; item_f2]
    (λ fileId, if String.eqb fileId "f1"
               then Raise (RemoteError "HttpError 404")
               else Ok meta_zip)
    (DlDone (FText "%PDF-1.7")) upload_ok process_ok.

(** The transfer breaks after the first chunk. *)
Definition E_fetch_fails : env :=
  scenario [item_f1] drive_of
    (DlFail (FText "%PDF") (RemoteError "HttpError 500"))
    upload_ok process_ok.

(** The trigger is answered 200 with a file entry without status. *)
Definition E_no_status : env :=
  scenario [item_f1] drive_of (DlDone (FText "%PDF-1.7")) upload_ok
    {| status_code := 200; body := Some (JObj [("files", JArr [JObj []])]) |}.

(** The upload is answered 200 with a [file] object without [fileUid]. *)
Definition E_no_uid : env :=
  scenario [item_f1] drive_of (DlDone (FText "%PDF-1.7"))
    {| status_code := 200; body := Some (JObj [("file", JObj [])]) |}
    process_ok.

(** The upload is answered 200 with [{"file": null}]. *)
Definition E_null_file : env :=
  scenario [item_f1] drive_of (DlDone (FText "%PDF-1.7"))
    {| status_code := 200; body := Some (JObj [("file", JNull)]) |}
    process_ok.

(** The trigger is answered 200 with an empty [files] list. *)
Definition E_empty_files : env :=
  scenario [item_f1] drive_of (DlDone (FText "%PDF-1.7")) upload_ok
    {| status_code := 200; body := Some (JObj [("files", JArr [])]) |}.

(** The upload is answered 500 with a JSON error body. *)
Definition E_http_500 : env :=
  scenario [item_f1] drive_of (DlDone (FText "%PDF-1.7"))
    {| status_code := 500;
       body := Some (JObj [("message", JStr "internal error")]) |}
    process_ok.

(** An editor document. *)
Definition E_doc : env :=
  scenario [item_f3] drive_of (DlDone (FText "%PDF-1.7"))
    upload_ok process_ok.

Definition empty_state : state :=
  {| fs := ∅; next_ino := 0; trace := []; frame := no_locals |}.

(** The Uploaded ledger already lists both files of [E_spec]. *)
Definition synced_state : state :=
  {| fs := {[ UPLOADED_FILE_PATH :=
                {| ino := 0;
                   data := ledger_doc (JArr [JStr "f1"; JStr "f2"]) |} ]};
     next_ino := 1; trace := []; frame := no_locals |}.

(** ** Vocabulary of the further properties *)

(** Line 111: [uploaded_file.get("file", {}).get("fileUid", None)]. *)
Definition file_uid_of (uploaded_file : json) : res json :=
  match py_get uploaded_file "file" (JObj []) with
  | Ok file => py_get file "fileUid" JNull
  | Raise e => Raise e
  end.

(** Line 121:
    [process_data.get("files", [{}])[0].get("processStatus", None)]. *)
Definition process_status_of (process_data : json) : res json :=
  match py_get process_data "files" (JArr [JObj []]) with
  | Ok files =>
      match py_index0 files with
      | Ok first => py_get first "processStatus" JNull
      | Raise e => Raise e
      end
  | Raise e => Raise e
  end.

(** The request of line 110 for the local file [local] holding [d]. *)
Definition upload_request (E : env) (local file_type : string) (d : fdata)
  : http_request :=
  {| rq_method := "POST"; rq_url := UPLOAD_FILES_URL;
     rq_json := Some (JObj [("name", JStr local); ("type", JStr file_type);
                            ("content", JStr (b64encode E (text_of E d)))]) |}.

(** The request of line 120. *)
Definition process_request (file_uid : json) : http_request :=
  {| rq_method := "POST"; rq_url := PROCESS_FILES_URL;
     rq_json := Some (JObj [("fileUids", JArr [file_uid])]) |}.

(** An answer that [call_catalog_api] of [helpers.py] turns into the
    document [v]: a status outside 400-599 and a JSON body. *)
Definition accepted (r : res http_response) (v : json) : Prop :=
  ∃ resp, r = Ok resp
    ∧ (status_code resp < 400 ∨ 600 ≤ status_code resp)%Z
    ∧ body resp = Some v.

(** What [append_file_id] makes of the list [l]. *)
Definition with_id (file_id : string) (l : list json) : list json :=
  if existsb (is_str file_id) l then l else l ++ [JStr file_id].

(** The events an iteration of the loop can add. *)
Definition item_event (e : event) : Prop :=
  match e with
  | EvGet _ | EvDownload _ _ _ | EvHttp _ | EvRemove _ => True
  | EvWrite path (FJson _) =>
      path = UPLOADED_FILE_PATH ∨ path = FAILED_FILE_PATH
      ∨ path = UNSUPPORTED_FILE_PATH
  | _ => False
  end.

(** The four verbs [call_catalog_api] of [script.py] knows. *)
Definition known_verb (method : string) : bool :=
  String.eqb method "GET" || String.eqb method "POST"
  || String.eqb method "PUT" || String.eqb method "DELETE".

(** Lines 113-130 of [main] with the Catalog client of [helpers.py]: what
    follows once the upload was answered and [file_uid] extracted. *)
Definition after_upload (E : env) (file_id local : string) (file_uid : json)
  : M unit :=
  if negb (truthy file_uid) then
    append_file_id file_id FAILED_FILE_PATH ;;
    os_remove local
  else
  let* process_data :=
    call_catalog_api E PROCESS_FILES_URL "POST"
      (Some (JObj [("fileUids", JArr [file_uid])])) "Process Files" in
  let* files := lift (py_get process_data "files" (JArr [JObj []])) in
  let* first := lift (py_index0 files) in
  let* process_status := lift (py_get first "processStatus" JNull) in
  if negb (truthy process_status) then
    append_file_id file_id FAILED_FILE_PATH ;;
    os_remove local
  else
  os_remove local ;;
  append_file_id file_id UPLOADED_FILE_PATH.

(** The requests of a trace, in order. *)
Definition http_requests (tr : list event) : list http_request :=
  omap (λ e, match e with EvHttp rq => Some rq | _ => None end) tr.

(** The requests one iteration may send: none, the upload, or the upload
    and then the trigger. *)
Definition exchange_shapes (rqs : list http_request) : Prop :=
  Forall (λ rq, rq_method rq = "POST") rqs
  ∧ (rq_url <$> rqs = []
     ∨ rq_url <$> rqs = [UPLOAD_FILES_URL]
     ∨ rq_url <$> rqs = [UPLOAD_FILES_URL; PROCESS_FILES_URL]).

(** The same, with the documents sent: the upload carries the local file
    of the iteration, the trigger an identifier. *)
Definition transfer_exchange (E : env) (local file_type : string)
    (rqs : list http_request) : Prop :=
  rqs = []
  ∨ (∃ d, rqs = [upload_request E local file_type d])
  ∨ (∃ d file_uid, rqs = [upload_request E local file_type d;
                          process_request file_uid]).

(** The four files the program keeps its state in. *)
Definition state_file (path : string) : Prop :=
  path = TIME_FILE_PATH ∨ path = UPLOADED_FILE_PATH
  ∨ path = FAILED_FILE_PATH ∨ path = UNSUPPORTED_FILE_PATH.

(** Every file of [st'] was already in [st] or is a state file. *)
Definition no_new_files (st st' : state) : Prop :=
  ∀ p, is_Some (fs st' !! p) → is_Some (fs st !! p) ∨ state_file p.

(** ** Names and texts *)

(** The model keeps the files of the working directory under their names
    as the program spells them. Two spellings are sure to denote two
    files when both are plain names (letters, digits, [.], [_] and [-];
    no directory part, not [.] or [..]) that differ beyond the case of
    their letters: that is what [apart] says, and what the properties
    about the content of the files ask of the names that come from
    Drive. *)
Fixpoint all_chars (p : Ascii.ascii → bool) (s : string) : bool :=
  match s with
  | "" => true
  | String c s' => p c && all_chars p s'
  end.

Definition name_char (c : Ascii.ascii) : bool :=
  let n := Ascii.nat_of_ascii c in
  ((48 <=? n)%nat && (n <=? 57)%nat) || ((65 <=? n)%nat && (n <=? 90)%nat)
  || ((97 <=? n)%nat && (n <=? 122)%nat)
  || (n =? 45)%nat || (n =? 46)%nat || (n =? 95)%nat.

Definition plain_name (name : string) : bool :=
  all_chars name_char name && negb (String.eqb name "")
  && negb (String.eqb name ".") && negb (String.eqb name "..").

Definition lower (c : Ascii.ascii) : Ascii.ascii :=
  let n := Ascii.nat_of_ascii c in
  if ((65 <=? n)%nat && (n <=? 90)%nat) then Ascii.ascii_of_nat (n + 32)
  else c.

Fixpoint fold_case (s : string) : string :=
  match s with
  | "" => ""
  | String c s' => String (lower c) (fold_case s')
  end.

Definition apart (a b : string) : Prop :=
  plain_name a = true ∧ plain_name b = true ∧ fold_case a ≠ fold_case b.

(** A text of ASCII characters without carriage return: what a file
    opened in text mode gives back as it was written, and on which
    [str.strip] removes the characters of [isspace] and no other. *)
Definition text_char (c : Ascii.ascii) : bool :=
  let n := Ascii.nat_of_ascii c in (n <? 128)%nat && negb (n =? 13)%nat.

Definition ascii_text (s : string) : bool := all_chars text_char s.

(** ** The routes of an iteration *)











(** ** Further scenarios *)

Definition item_dir : drive_item :=
  {| item_id := "d1"; item_name := "Reports";
     item_modifiedTime := "2024-05-17T08:25:00.000Z" |}.

Definition meta_folder : drive_meta :=
  {| meta_mimeType := FOLDER_MIME; meta_name := "Reports" |}.

(** The listing holds one folder. *)
Definition E_folder : env :=
  scenario [item_dir] (λ _, Ok meta_folder) (DlDone (FText ""))
    upload_ok process_ok.

(** The checkpoint file holds a time stamp. *)
Definition stamped_state : state :=
  {| fs := {[ TIME_FILE_PATH :=
                {| ino := 0; data := FText "2024-05-17T08:00:00.000Z" |} ]};
     next_ino := 1; trace := []; frame := no_locals |}.

(** The checkpoint file holds white space only. *)
Definition blank_state : state :=
  {| fs := {[ TIME_FILE_PATH := {| ino := 0; data := FText "  " |} ]};
     next_ino := 1; trace := []; frame := no_locals |}.

(** * Properties *)

(** ** Elementary facts *)

Lemma existsb_is_str (s : string) (l : list json) :
  existsb (is_str s) l = true ↔ JStr s ∈ l.
Proof.
  induction l as [|v l IH]; simpl.
  - split; [discriminate | intros H; inversion H].
  - rewrite orb_true_iff, IH, elem_of_cons. split.
    + intros [H | H]; [left | by right].
      destruct v; simpl in H; try discriminate.
      apply String.eqb_eq in H. by subst.
    + intros [<- | H]; [left | by right].
      simpl. apply String.eqb_refl.
Qed.

Lemma existsb_is_str_false (s : string) (l : list json) :
  existsb (is_str s) l = false ↔ JStr s ∉ l.
Proof.
  rewrite <- existsb_is_str. destruct (existsb (is_str s) l); split;
    congruence.
Qed.

Lemma dict_get_missing (k : string) (d : list (string * string)) (dflt : string) :
  k ∉ d.*1 → dict_get k d dflt = dflt.
Proof.
  induction d as [|[k' v] d IH]; simpl; [done |].
  rewrite not_elem_of_cons. intros [Hk Hd].
  destruct (String.eqb_spec k' k); [congruence | auto].
Qed.

Lemma load_uploaded_files_state (file_path : string) (st : state) :
  snd (load_uploaded_files file_path st) = st.
Proof.
  unfold load_uploaded_files, bind, path_exists, read_file, lift, ret.
  case_bool_decide as Hex.
  - destruct Hex as [f Hf]. rewrite Hf. simpl.
    by destruct (json_load (data f)).
  - done.
Qed.

Lemma load_uploaded_files_ledger (file_path : string) (st : state) :
  load_uploaded_files file_path st = (ledger file_path st, st).
Proof.
  unfold ledger. rewrite <- (load_uploaded_files_state file_path st) at 3.
  by destruct (load_uploaded_files file_path st).
Qed.

Lemma ledger_put (file_path : string) (v : json) (st : state) :
  ledger file_path (put file_path (FJson (JObj [("data", v)])) st) = Ok v.
Proof.
  unfold ledger, load_uploaded_files, bind, path_exists, read_file, lift, ret.
  simpl. rewrite lookup_insert_eq.
  rewrite bool_decide_eq_true_2 by eauto.
  simpl. by rewrite lookup_insert_eq.
Qed.

Lemma ledger_log (file_path : string) (e : event) (st : state) :
  ledger file_path (log e st) = ledger file_path st.
Proof.
  unfold ledger, load_uploaded_files, bind, path_exists, read_file, lift, ret.
  simpl. case_bool_decide; [| done].
  simpl. by destruct (fs st !! file_path) as [f|]; [destruct (json_load _) |].
Qed.

(** One call of [append_file_id] on a ledger that reads as the list [l]. *)
Lemma append_file_id_list (file_id file_path : string) (l : list json)
    (st : state) :
  ledger file_path st = Ok (JArr l) →
  let l' := if existsb (is_str file_id) l then l else l ++ [JStr file_id] in
  let doc := FJson (JObj [("data", JArr l')]) in
  append_file_id file_id file_path st
  = (Ok tt, log (EvWrite file_path doc) (put file_path doc st)).
Proof.
  intros Hl. unfold append_file_id, bind.
  rewrite load_uploaded_files_ledger, Hl. simpl.
  by destruct (existsb (is_str file_id) l).
Qed.

(** ** C7: the type classifier *)

(** C7. [get_file_type] is a total function given by a fixed table: it
    returns ["none"] (the Unsupported marker) exactly on the MIME types
    that are not keys of the table, every entry of the table is mapped to
    its own catalog type, and the twelve types the specification
    enumerates (PDF, plain text, markdown, PNG, JPEG, HTML, DOCX, DOC,
    PPT, PPTX, XLS, XLSX) are classified as listed. *)
Theorem get_file_type_table :
  (∀ mime_type, mime_type ∉ mime_type_to_file_type.*1 ↔
                get_file_type mime_type = "none")
  ∧ Forall (λ kv, get_file_type kv.1 = kv.2 ∧ kv.2 ≠ "none")
      mime_type_to_file_type
  ∧ get_file_type "application/pdf" = "FILE_TYPE_PDF"
  ∧ get_file_type "text/plain" = "FILE_TYPE_TEXT"
  ∧ get_file_type "text/markdown" = "FILE_TYPE_MARKDOWN"
  ∧ get_file_type "image/png" = "FILE_TYPE_PNG"
  ∧ get_file_type "image/jpeg" = "FILE_TYPE_JPEG"
  ∧ get_file_type "text/html" = "FILE_TYPE_HTML"
  ∧ get_file_type
      "application/vnd.openxmlformats-officedocument.wordprocessingml.document"
    = "FILE_TYPE_DOCX"
  ∧ get_file_type "application/msword" = "FILE_TYPE_DOC"
  ∧ get_file_type "application/vnd.ms-powerpoint" = "FILE_TYPE_PPT"
  ∧ get_file_type
      "application/vnd.openxmlformats-officedocument.presentationml.presentation"
    = "FILE_TYPE_PPTX"
  ∧ get_file_type "application/vnd.ms-excel" = "FILE_TYPE_XLS"
  ∧ get_file_type
      "application/vnd.openxmlformats-officedocument.spreadsheetml.sheet"
    = "FILE_TYPE_XLSX".
Proof.
  split; [| split; [| repeat split]].
  - intros m. split; [apply dict_get_missing |].
    intros Hnone Hin.
    assert (Hall : Forall (λ kv, get_file_type kv.1 ≠ "none")
                     mime_type_to_file_type)
      by (repeat constructor; discriminate).
    apply list_elem_of_fmap in Hin as [kv [-> Hkv]].
    rewrite Forall_forall in Hall. by apply (Hall kv).
  - repeat constructor; discriminate.
Qed.

(** ** C6: the ledger append *)

(** C6. On a ledger that reads as the list [l], [append_file_id] returns
    normally and leaves the file holding [{"data": l'}], where [l'] is
    [l] itself when the id is already present and [l] followed by the id
    otherwise; the file is rewritten by every call, so reading it back
    gives [l']; and a second append of the same id leaves the set (and
    its size) as the first one made it. *)
Theorem append_file_id_idempotent (file_id file_path : string)
    (l : list json) (st : state) :
  ledger file_path st = Ok (JArr l) →
  ∃ l' st1 st2,
    append_file_id file_id file_path st = (Ok tt, st1)
    ∧ (JStr file_id ∈ l → l' = l)
    ∧ (JStr file_id ∉ l → l' = l ++ [JStr file_id])
    ∧ content st1 file_path = Some (FJson (JObj [("data", JArr l')]))
    ∧ ledger file_path st1 = Ok (JArr l')
    ∧ append_file_id file_id file_path st1 = (Ok tt, st2)
    ∧ ledger file_path st2 = Ok (JArr l')
    ∧ content st2 file_path = content st1 file_path.
Proof.
  intros Hl.
  set (l' := if existsb (is_str file_id) l then l else l ++ [JStr file_id]).
  set (doc := FJson (JObj [("data", JArr l')])).
  set (st1 := log (EvWrite file_path doc) (put file_path doc st)).
  assert (H1 : ledger file_path st1 = Ok (JArr l'))
    by (unfold st1; rewrite ledger_log; apply ledger_put).
  assert (Hin : existsb (is_str file_id) l' = true).
  { unfold l'. destruct (existsb (is_str file_id) l) eqn:Hex; [done |].
    rewrite existsb_app, Hex. simpl. by rewrite String.eqb_refl. }
  exists l', st1, (log (EvWrite file_path doc) (put file_path doc st1)).
  split; [apply (append_file_id_list _ _ _ _ Hl) |].
  split; [intros Hi; apply existsb_is_str in Hi; unfold l'; by rewrite Hi |].
  split; [intros Hi; apply existsb_is_str_false in Hi; unfold l';
          by rewrite Hi |].
  assert (Hc : ∀ s, content (log (EvWrite file_path doc) (put file_path doc s))
                      file_path = Some doc)
    by (intros s; unfold content; simpl; by rewrite lookup_insert_eq).
  split; [apply Hc |]. split; [exact H1 |].
  split.
  - rewrite (append_file_id_list _ _ _ _ H1). simpl. by rewrite Hin.
  - split; [rewrite ledger_log; apply ledger_put |].
    rewrite Hc. unfold st1. by rewrite Hc.
Qed.

Lemma append_file_id_idempotent_witness :
  ledger UPLOADED_FILE_PATH synced_state = Ok (JArr [JStr "f1"; JStr "f2"])
  ∧ ∃ l' st1 st2,
      append_file_id "f3" UPLOADED_FILE_PATH synced_state = (Ok tt, st1)
      ∧ (JStr "f3" ∈ [JStr "f1"; JStr "f2"] → l' = [JStr "f1"; JStr "f2"])
      ∧ (JStr "f3" ∉ [JStr "f1"; JStr "f2"] →
         l' = [JStr "f1"; JStr "f2"] ++ [JStr "f3"])
      ∧ content st1 UPLOADED_FILE_PATH
        = Some (FJson (JObj [("data", JArr l')]))
      ∧ ledger UPLOADED_FILE_PATH st1 = Ok (JArr l')
      ∧ append_file_id "f3" UPLOADED_FILE_PATH st1 = (Ok tt, st2)
      ∧ ledger UPLOADED_FILE_PATH st2 = Ok (JArr l')
      ∧ content st2 UPLOADED_FILE_PATH = content st1 UPLOADED_FILE_PATH.
Proof.
  split; [reflexivity |].
  apply (append_file_id_idempotent "f3" UPLOADED_FILE_PATH
           [JStr "f1"; JStr "f2"] synced_state).
  reflexivity.
Defined.

(** ** The checkpoint *)

Lemma read_modified_time_checkpoint E st :
  read_modified_time_from_file E st = (Ok (checkpoint E st), st).
Proof.
  unfold read_modified_time_from_file, checkpoint, content, bind, path_exists,
    read_file, ret.
  destruct (fs st !! TIME_FILE_PATH) as [f|] eqn:Hf; simpl; [| done].
  by rewrite Hf.
Qed.

Lemma isspace_digit n : isspace (digit n) = false.
Proof.
  unfold digit. pose proof (Nat.mod_upper_bound n 10 ltac:(lia)) as Hlt.
  destruct (n mod 10) as [|[|[|[|[|[|[|[|[|[|k]]]]]]]]]]; try reflexivity.
  lia.
Qed.

Lemma strip_format_time dt : strip (format_time dt) = format_time dt.
Proof.
  unfold strip, format_time, strftime, drop_last3.
  cbv -[digit Nat.div isspace].
  rewrite isspace_digit. reflexivity.
Qed.

Lemma fresh_checkpoint_eq E st :
  fresh_checkpoint E st
  = (Ok (current_time E st), initialised (current_time E st) st).
Proof. reflexivity. Qed.

Lemma resolve_checkpoint_outcomes E st :
  (∃ t, checkpoint E st = Some t ∧ t ≠ ""
        ∧ resolve_checkpoint E st = (Ok t, st))
  ∨ ((checkpoint E st = None ∨ checkpoint E st = Some "")
     ∧ resolve_checkpoint E st
       = (Ok (current_time E st), initialised (current_time E st) st)).
Proof.
  unfold resolve_checkpoint, bind. rewrite read_modified_time_checkpoint.
  destruct (checkpoint E st) as [t|];
    [| right; split; [by left | apply fresh_checkpoint_eq]].
  destruct (String.eqb_spec t "") as [-> | Hne].
  - right. split; [by right | apply fresh_checkpoint_eq].
  - left. by exists t.
Qed.

(** ** The outcomes of one iteration *)

Lemma try_except_bind {A B} (m : M A) (k : A → M B) (h : exn → M B)
    (st : state) :
  try_except (bind m k) h st
  = match m st with
    | (Ok a, st1) => try_except (k a) h st1
    | (Raise e, st1) => h e st1
    end.
Proof. unfold try_except, bind. by destruct (m st) as [[a|e] st1]. Qed.

Lemma ledger_entered (p : string) (item : drive_item) (st : state) :
  ledger p (entered item st) = ledger p st.
Proof.
  unfold ledger, load_uploaded_files, bind, path_exists, read_file, lift, ret.
  simpl. case_bool_decide; [| done].
  simpl. by destruct (fs st !! p) as [f|]; [destruct (json_load _) |].
Qed.

(** [append_file_id] either raises before touching anything or rewrites
    the ledger file. *)
Lemma append_file_id_outcomes (file_id file_path : string) (st : state)
    (r : res unit) (st' : state) :
  append_file_id file_id file_path st = (r, st') →
  (∃ e, r = Raise e ∧ st' = st)
  ∨ (r = Ok tt ∧ ∃ v, st' = saved file_path v st).
Proof.
  unfold append_file_id, bind. rewrite load_uploaded_files_ledger.
  destruct (ledger file_path st) as [c|e]; [| intros [= <- <-]; eauto].
  unfold lift at 1.
  destruct (py_in file_id c) as [present|e]; [| intros [= <- <-]; eauto].
  destruct present; simpl.
  - intros [= <- <-]. right. eauto.
  - unfold lift. destruct (py_append c (JStr file_id)) as [c'|e];
      intros [= <- <-]; [right | left]; eauto.
Qed.

Lemma handler_outcomes (e : exn) (st : state) (r : res unit) (st' : state) :
  item_handler e st = (r, st') → handler_outcome st r st'.
Proof.
  unfold item_handler, bind, get_local, path_exists, os_remove, ret.
  destruct (file_name (frame st)) as [fname|] eqn:Hname; simpl;
    [| intros [= <- <-]; apply h_unbound; auto].
  destruct (file_id (frame st)) as [fid|] eqn:Hid; simpl;
    [| intros [= <- <-]; apply h_unbound; auto].
  destruct (local_file_name (frame st)) as [l|] eqn:Hl; simpl;
    [| intros [= <- <-]; apply h_unbound; auto].
  destruct (fs st !! l) as [f|] eqn:Hf.
  - rewrite bool_decide_eq_true_2 by eauto. rewrite Hf.
    intros [= <- <-]. apply (h_removed st l); [done | by rewrite Hf].
  - rewrite bool_decide_eq_false_2 by (by intros [? ?]).
    intros [= <- <-]. by apply (h_nothing st l).
Qed.

Ltac unfold_transfer :=
  unfold try_except, upload_and_process, item_handler, append_file_id,
    load_uploaded_files, save_uploaded_files, process_file_data,
    call_catalog_api, requests_request, raise_for_status, response_json,
    download, os_remove, read_file, write_file, path_exists, get_local,
    bind, ret, raise, lift in *.

(** Case analysis on the innermost scrutinee of hypothesis [H]. *)
Ltac head_destruct H :=
  match type of H with
  | context [match ?x with _ => _ end] =>
      lazymatch x with
      | context [match _ with _ => _ end] => fail
      | _ => destruct x eqn:?
      end
  end.

(** Once the three variables are bound, the guarded transfer stage
    never raises, and it ends in one of the listed states. *)
Lemma transfer_outcomes (E : env) (id local ft : string) (rq : media_request)
    (st : state) (r : res unit) (st' : state) :
  bound local st →
  try_except (upload_and_process E (call_catalog_api E) id local ft rq)
    item_handler st = (r, st') →
  r = Ok tt ∧ transfer_outcome local rq st st'.
Proof.
  intros (Hid & Hname & Hloc) H.
  destruct Hid as [fid Hid], Hname as [fname Hname].
  unfold_transfer.
  repeat (first
    [ progress (simpl in H; rewrite ?Hid, ?Hname, ?Hloc in H)
    | rewrite lookup_insert in H
    | rewrite lookup_delete in H
    | case_decide
    | head_destruct H ]).
  all: try discriminate.
  all: inversion H; subst; clear H; split; [done |].
  all: try (by eauto using transfer_outcome).
  apply out_not_opened.
  match goal with
  | Hb : bool_decide _ = false |- _ =>
      apply bool_decide_eq_false in Hb; by apply eq_None_not_Some
  end.
Qed.

Lemma process_item_outcomes (E : env) (item : drive_item) (st : state)
    (r : res unit) (st' : state) :
  process_item E (call_catalog_api E) item st = (r, st') →
  item_outcome E item st r st'.
Proof.
  unfold process_item, item_body. intros H.
  rewrite try_except_bind in H.
  change (set_file_id (item_id item) st) with (Ok tt, entered item st) in H.
  cbv beta iota in H.
  rewrite try_except_bind, load_uploaded_files_ledger, ledger_entered in H.
  pose proof (eq_refl (already_uploaded item st)) as Hseen.
  unfold already_uploaded at 2 in Hseen.
  destruct (ledger UPLOADED_FILE_PATH st) as [c|e];
    [| eapply io_ledger_exception; [done | by eapply handler_outcomes]].
  rewrite try_except_bind in H. unfold lift at 1 in H.
  destruct (py_in (item_id item) c) as [[|]|e];
    [ injection H as <- <-; by apply io_skipped
    | | eapply io_ledger_exception; [done | by eapply handler_outcomes] ].
  rewrite try_except_bind in H. unfold files_get at 1 in H.
  change (trace (entered item st)) with (trace st) in H.
  destruct (drive_get E (trace st) (item_id item)) as [m|e] eqn:Hget;
    [| eapply io_metadata_exception; [done .. | by eapply handler_outcomes]].
  rewrite try_except_bind in H. unfold set_file_name at 1 in H.
  cbv beta iota in H.
  rewrite try_except_bind in H. unfold set_local_file_name at 1 in H.
  cbv beta iota in H.
  match type of H with
  | context [try_except _ _ ?s] => change s with (inspected item m st) in H
  end.
  destruct (String.eqb_spec (meta_mimeType m) FOLDER_MIME) as [Hf|Hf];
    [injection H as <- <-; by apply io_folder |].
  destruct (String.eqb_spec (get_file_type (export_mime (meta_mimeType m)))
              "none") as [Hn|Hn].
  - unfold try_except in H.
    destruct (append_file_id (item_id item) UNSUPPORTED_FILE_PATH
                (inspected item m st)) as [ra sa] eqn:Ha.
    apply append_file_id_outcomes in Ha as [(e & -> & ->) | (-> & v & ->)].
    + apply (io_unsupported_exception E item st m); [done .. |].
      by eapply handler_outcomes.
    + injection H as <- <-. by apply (io_unsupported E item st m v).
  - apply transfer_outcomes in H as [-> H];
      [by apply (io_transfer E item st m) |].
    repeat split; simpl; eauto.
Qed.

(** ** The file-system invariant *)

Lemma lookup_put p d st q :
  fs (put p d st) !! q
  = if decide (p = q) then Some {| ino := inode_for p st; data := d |}
    else fs st !! q.
Proof. simpl. apply lookup_insert. Qed.

Lemma inode_for_cases p st :
  (∃ g, fs st !! p = Some g ∧ inode_for p st = ino g
        ∧ ∀ d, next_ino (put p d st) = next_ino st)
  ∨ (fs st !! p = None ∧ inode_for p st = next_ino st
     ∧ ∀ d, next_ino (put p d st) = S (next_ino st)).
Proof.
  unfold inode_for, put. simpl.
  destruct (fs st !! p) as [g|]; [left | right]; eauto.
Qed.

Lemma wf_fs_put p d st : wf_fs st → wf_fs (put p d st).
Proof.
  intros [Hlt Hinj].
  destruct (inode_for_cases p st) as [(g & Hg & Hi & Hn) | (Hg & Hi & Hn)].
  - split.
    + intros q f. rewrite lookup_put, Hn, Hi.
      destruct (decide (p = q)); [intros [= <-]; simpl | ]; eauto.
    + intros q1 q2 f1 f2. rewrite !lookup_put, Hi.
      destruct (decide (p = q1)) as [<-|], (decide (p = q2)) as [<-|];
        try done.
      * intros [= <-] H2 Heq. simpl in Heq. eauto.
      * intros H1 [= <-] Heq. simpl in Heq. symmetry. eauto.
      * eauto.
  - split.
    + intros q f. rewrite lookup_put, Hn, Hi.
      destruct (decide (p = q)); [intros [= <-]; simpl; lia |].
      intros Hf. apply Hlt in Hf. lia.
    + intros q1 q2 f1 f2. rewrite !lookup_put, Hi.
      destruct (decide (p = q1)) as [<-|], (decide (p = q2)) as [<-|];
        try done.
      * intros [= <-] H2 Heq. simpl in Heq. apply Hlt in H2. lia.
      * intros H1 [= <-] Heq. simpl in Heq. apply Hlt in H1. lia.
      * eauto.
Qed.

Lemma wf_fs_unlink p st : wf_fs st → wf_fs (unlink p st).
Proof.
  intros [Hlt Hinj]. split; simpl.
  - intros q f Hf. apply lookup_delete_Some in Hf as [_ Hf]. eauto.
  - intros q1 q2 f g Hf Hg.
    apply lookup_delete_Some in Hf as [_ Hf].
    apply lookup_delete_Some in Hg as [_ Hg]. eauto.
Qed.

Lemma unlinked_put i p d st : wf_fs st → unlinked st i → unlinked (put p d st) i.
Proof.
  intros [Hlt _] [Hi Hdead].
  destruct (inode_for_cases p st) as [(g & Hg & Hp & Hn) | (Hg & Hp & Hn)];
    (split; [rewrite Hn; lia |]);
    intros q f; rewrite lookup_put, Hp;
    (destruct (decide (p = q)); [intros [= <-]; simpl | by apply Hdead]).
  - by eapply Hdead.
  - lia.
Qed.

Lemma unlinked_unlink i p st : unlinked st i → unlinked (unlink p st) i.
Proof.
  intros [Hi Hdead]. split; [done |]. simpl.
  intros q f Hf. apply lookup_delete_Some in Hf as [_ Hf]. eauto.
Qed.

Lemma tidy_put p d st : tidy st → tidy (put p d st).
Proof.
  intros [Hwf Hno]. split; [by apply wf_fs_put |].
  intros rq q i Hin. apply unlinked_put; [done |]. by eapply Hno.
Qed.

Lemma tidy_unlink p st : tidy st → tidy (unlink p st).
Proof.
  intros [Hwf Hno]. split; [by apply wf_fs_unlink |].
  intros rq q i Hin. apply unlinked_unlink. by eapply Hno.
Qed.

Lemma tidy_log e st : quiet e → tidy st → tidy (log e st).
Proof.
  intros He [Hwf Hno]. split; [done |].
  intros rq q i Hin. simpl in Hin.
  apply elem_of_app in Hin as [Hin | Hin]; [by eapply Hno |].
  apply list_elem_of_singleton in Hin. subst e. done.
Qed.

Lemma tidy_with_frame f st : tidy st → tidy (with_frame f st).
Proof. done. Qed.

Lemma tidy_removed p st : tidy st → tidy (removed p st).
Proof. intros H. apply tidy_log; [done |]. by apply tidy_unlink. Qed.

Lemma tidy_saved p v st : tidy st → tidy (saved p v st).
Proof. intros H. apply tidy_log; [done |]. by apply tidy_put. Qed.

Lemma holding_fetched rq local d st :
  tidy st → holding local (inode_for local st) (fetched rq local d st).
Proof.
  intros [Hwf Hno]. split; [by apply wf_fs_put |]. split.
  - intros rq' p j Hin. simpl in Hin.
    apply elem_of_app in Hin as [Hin | Hin].
    + right. apply unlinked_put; [done |]. by eapply Hno.
    + apply list_elem_of_singleton in Hin. left. congruence.
  - exists {| ino := inode_for local st; data := d |}.
    split; [apply lookup_insert_eq | done].
Qed.

Lemma holding_log e local i st :
  quiet e → holding local i st → holding local i (log e st).
Proof.
  intros He (Hwf & Hdl & Hf). split; [done |]. split; [| done].
  intros rq p j Hin. simpl in Hin.
  apply elem_of_app in Hin as [Hin | Hin]; [by eapply Hdl |].
  apply list_elem_of_singleton in Hin. subst e. done.
Qed.

Lemma holding_put p d local i st :
  holding local i st → holding local i (put p d st).
Proof.
  intros (Hwf & Hdl & f & Hf & Hi). split; [by apply wf_fs_put |]. split.
  - intros rq q j Hin. destruct (Hdl rq q j Hin) as [-> | Hu]; [by left |].
    right. by apply unlinked_put.
  - rewrite lookup_put. destruct (decide (p = local)) as [->|]; [| eauto].
    unfold inode_for. rewrite Hf. eauto.
Qed.

Lemma holding_removed local i st :
  holding local i st → tidy (removed local st).
Proof.
  intros (Hwf & Hdl & f & Hf & Hi).
  split; [by apply wf_fs_unlink |].
  intros rq q j Hin. simpl in Hin.
  apply elem_of_app in Hin as [Hin | Hin];
    [| by apply list_elem_of_singleton in Hin].
  destruct (Hdl rq q j Hin) as [-> | Hu];
    [| by apply (unlinked_unlink _ _ st)].
  destruct Hwf as [Hlt Hinj]. subst i.
  split; simpl; [by eapply Hlt |].
  intros p g Hg. apply lookup_delete_Some in Hg as [Hne Hg].
  intros Heq. apply Hne. symmetry. by eapply Hinj.
Qed.

Lemma transfer_tidy local rq st st' :
  tidy st → transfer_outcome local rq st st' → tidy st'.
Proof.
  intros Ht Hout.
  pose proof (holding_fetched rq local) as Hf.
  destruct Hout; auto using tidy_removed.
  all: try (eapply holding_removed; unfold sent, saved;
            repeat first [ apply holding_log; [done |] | apply holding_put ];
            by apply Hf).
  apply tidy_saved. eapply holding_removed. unfold sent.
  repeat (apply holding_log; [done |]). by apply Hf.
Qed.

Lemma handler_tidy st r st' : tidy st → handler_outcome st r st' → tidy st'.
Proof. intros Ht []; auto using tidy_removed. Qed.

Lemma item_tidy E item st r st' :
  tidy st → item_outcome E item st r st' → tidy st'.
Proof.
  intros Ht Hout.
  assert (He : tidy (entered item st)) by done.
  assert (Hg : tidy (log (EvGet (item_id item)) (entered item st)))
    by (by apply tidy_log).
  assert (Hi : ∀ m, tidy (inspected item m st))
    by (intros m; apply tidy_with_frame; by apply tidy_log).
  destruct Hout; eauto using handler_tidy, tidy_saved, transfer_tidy.
Qed.

(** ** The events of one iteration *)

(** The events a computation appended, made explicit. *)
Ltac new_events :=
  first
    [ exists []; split; [by rewrite app_nil_r |]
    | eexists; split; [simpl; rewrite <- ?app_assoc; simpl; reflexivity |] ].


Lemma handler_events st r st' :
  handler_outcome st r st' →
  trace st' = trace st ∨ ∃ l, trace st' = trace st ++ [EvRemove l].
Proof. intros []; eauto. Qed.

Lemma transfer_events local rq st st' :
  transfer_outcome local rq st st' → ∃ evs, trace st' = trace st ++ evs.
Proof.
  intros []; simpl; rewrite <- ?app_assoc; eauto.
  exists []. by rewrite app_nil_r.
Qed.

Lemma item_events E item st r st' :
  item_outcome E item st r st' → ∃ evs, trace st' = trace st ++ evs.
Proof.
  intros [e r0 s0 _ Hh | _ | e r0 s0 _ _ Hh | m _ _ _ | m v _ _ _ _
         | m r0 s0 _ _ _ _ Hh | m s0 _ _ _ _ Ht].
  7:{ apply transfer_events in Ht as [evs ->]. simpl.
      rewrite <- app_assoc. eauto. }
  all: try (apply handler_events in Hh as [-> | [l ->]]).
  all: simpl; rewrite <- ?app_assoc; eauto.
  all: exists []; by rewrite app_nil_r.
Qed.

Lemma for_items_events E items st r st' :
  for_items E (call_catalog_api E) items st = (r, st') →
  ∃ evs, trace st' = trace st ++ evs.
Proof.
  revert st. induction items as [|it items IH]; intros st.
  - intros [= <- <-]. exists []. by rewrite app_nil_r.
  - simpl. unfold bind.
    destruct (process_item E (call_catalog_api E) it st) as [[[]|e] s1] eqn:H1;
      apply process_item_outcomes, item_events in H1 as [evs1 H1].
    + intros H2. apply IH in H2 as [evs2 ->]. rewrite H1, <- app_assoc. eauto.
    + intros [= <- <-]. eauto.
Qed.

Lemma transfer_path_free local rq st st' :
  transfer_outcome local rq st st' →
  ∃ evs, trace st' = trace st ++ evs
    ∧ ∀ rq' path i, EvDownload rq' path i ∈ evs →
        path = local ∧ (path ≠ UPLOADED_FILE_PATH → fs st' !! path = None).
Proof.
  intros []; new_events; intros rq' path i Hin.
  all: repeat (apply elem_of_cons in Hin as [Hin | Hin]; simplify_eq/=).
  all: try (by apply elem_of_nil in Hin).
  all: split; [done |]; intros Hne.
  all: rewrite ?lookup_insert_ne by done; by rewrite lookup_delete_eq.
Qed.

Lemma item_path_free E item st r st' :
  item_outcome E item st r st' →
  ∃ evs, trace st' = trace st ++ evs
    ∧ ∀ rq path i, EvDownload rq path i ∈ evs →
        path ≠ UPLOADED_FILE_PATH → fs st' !! path = None.
Proof.
  intros Hout.
  destruct Hout as [e r st' _ Hh | _ | e r st' _ _ Hh | m _ _ _ | m v _ _ _ _
                   | m r st' _ _ _ _ Hh | m st' _ _ _ _ Ht].
  7:{ apply transfer_path_free in Ht as (evs & Htr & Hp).
      exists (EvGet (item_id item) :: evs). split.
      - rewrite Htr. simpl. by rewrite <- app_assoc.
      - intros rq path i Hin. apply elem_of_cons in Hin as [Hin | Hin]; [done |].
        by apply Hp in Hin as [_ Hin]. }
  all: try apply handler_events in Hh as [Hh | [l Hh]].
  all: first [ exists []; split; [by rewrite app_nil_r |]
             | eexists; split; [rewrite ?Hh; simpl; rewrite <- ?app_assoc; simpl; reflexivity |] ].
  all: intros rq path i Hin.
  all: repeat (apply elem_of_cons in Hin as [Hin | Hin]; simplify_eq/=).
  all: by apply elem_of_nil in Hin.
Qed.

(** ** C8: no transient file outlives its iteration *)

(** C8. An iteration that starts with no transferred file in the file
    system ends with none: whatever the outcome (success, upload failure,
    processing failure, an exception while fetching or anywhere later),
    the file that the transfer of this iteration wrote into has been
    unlinked when the iteration completes, so no path refers to it any
    more; and its path is free, unless that path is the one of the
    Uploaded ledger, which the success branch writes anew after the
    removal. *)
Theorem transient_cleanup (E : env) (item : drive_item) (st : state)
    (r : res unit) (st' : state) :
  tidy st →
  process_item E (call_catalog_api E) item st = (r, st') →
  tidy st'
  ∧ ∃ evs, trace st' = trace st ++ evs
      ∧ ∀ rq path i, EvDownload rq path i ∈ evs →
          unlinked st' i
          ∧ (path ≠ UPLOADED_FILE_PATH → fs st' !! path = None).
Proof.
  intros Ht H. apply process_item_outcomes in H.
  assert (Ht' : tidy st') by (by eapply item_tidy).
  split; [done |].
  destruct (item_path_free _ _ _ _ _ H) as (evs & Htr & Hp).
  exists evs. split; [done |]. intros rq path i Hin. split; [| by eapply Hp].
  destruct Ht' as [_ Hno]. apply (Hno rq path i).
  rewrite Htr. apply elem_of_app. by right.
Qed.

Lemma empty_state_tidy : tidy empty_state.
Proof.
  split; [split |].
  - intros p f Hf. change (fs empty_state) with (∅ : gmap string lfile) in Hf.
    by rewrite lookup_empty in Hf.
  - intros p q f g Hf. change (fs empty_state) with (∅ : gmap string lfile) in Hf.
    by rewrite lookup_empty in Hf.
  - intros rq path i Hin. by apply elem_of_nil in Hin.
Defined.

Lemma transient_cleanup_witness :
  let run := process_item E_spec (call_catalog_api E_spec) item_f1 empty_state in
  tidy empty_state
  ∧ run = (Ok tt, snd run)
  ∧ tidy (snd run)
  ∧ ∃ evs, trace (snd run) = trace empty_state ++ evs
      ∧ ∀ rq path i, EvDownload rq path i ∈ evs →
          unlinked (snd run) i
          ∧ (path ≠ UPLOADED_FILE_PATH → fs (snd run) !! path = None).
Proof.
  split; [exact empty_state_tidy |]. split; [vm_compute; reflexivity |].
  apply (transient_cleanup E_spec item_f1 empty_state (Ok tt));
    [exact empty_state_tidy | vm_compute; reflexivity].
Defined.

(** The invariant holds all along a run that starts with it. *)
Lemma for_items_tidy (E : env) (items : list drive_item) (st : state)
    (r : res unit) (st' : state) :
  tidy st →
  for_items E (call_catalog_api E) items st = (r, st') →
  tidy st'.
Proof.
  revert st. induction items as [|it items IH]; intros st Ht.
  - by intros [= <- <-].
  - simpl. unfold bind.
    destruct (process_item E (call_catalog_api E) it st) as [[[]|e] s1] eqn:H1;
      apply process_item_outcomes in H1; apply (item_tidy _ _ _ _ _ Ht) in H1.
    + by apply IH.
    + by intros [= <- <-].
Qed.

Lemma run_once_tidy (E : env) (st : state) (r : res unit) (st' : state) :
  tidy st →
  run_once E (call_catalog_api E) st = (r, st') →
  tidy st'.
Proof.
  intros Ht. unfold run_once, bind at 1, build.
  assert (H0 : tidy (log EvBuild st)) by (by apply tidy_log).
  destruct (drive_build E (trace st)); [by intros [= <- <-] |].
  unfold bind at 1.
  assert (H1 : ∃ t s1, resolve_checkpoint E (log EvBuild st) = (Ok t, s1)
                       ∧ tidy s1).
  { destruct (resolve_checkpoint_outcomes E (log EvBuild st))
      as [(t & _ & _ & ->) | [_ ->]]; eauto.
    eexists _, _. split; [done |].
    apply tidy_log; [done |]. apply tidy_put. by apply tidy_log. }
  destruct H1 as (t & s1 & -> & H1).
  unfold bind at 1, files_list.
  assert (H2 : tidy (log (EvList t) s1)) by (by apply tidy_log).
  destruct (drive_list E (trace s1) t) as [[|it items]|e];
    [by intros [= <- <-] | by apply for_items_tidy | by intros [= <- <-]].
Qed.

Lemma main_tidy (E : env) (depth : nat) (st : state) (r : res unit)
    (st' : state) :
  tidy st → main E depth st = (r, st') → tidy st'.
Proof.
  unfold main. revert st. induction depth as [|d IH]; intros st Ht.
  - by intros [= <- <-].
  - simpl. unfold bind, new_frame, try_except.
    destruct (run_once E (call_catalog_api E) (with_frame no_locals st))
      as [[[]|e] s1] eqn:H1;
      apply run_once_tidy in H1; try done.
    + by intros [= <- <-].
    + by apply IH.
Qed.

(** The four outcomes the specification names, each on a run of its
    own: the transfer took place, and no file is left at its path. *)
Lemma cleanup_in_each_outcome :
  Forall (λ E,
    let st' := snd (main E 3 empty_state) in
    fst (main E 3 empty_state) = Ok tt
    ∧ (∃ rq i, EvDownload rq "report.pdf" i ∈ trace st')
    ∧ fs st' !! "report.pdf" = None)
    [E_spec; E_no_uid; E_no_status; E_fetch_fails].
Proof.
  repeat constructor; try (vm_compute; reflexivity).
  all: exists (GetMedia "f1"), 1; vm_compute;
    repeat first [by apply list_elem_of_here | apply list_elem_of_further].
Qed.

(** ** The order of the events of an iteration *)


(** ** C10: editor documents are always classified as PDF *)

Lemma pdf_name_not_ledger (name : string) :
  name +:+ ".pdf" ≠ UNSUPPORTED_FILE_PATH.
Proof.
  unfold UNSUPPORTED_FILE_PATH. intros H.
  repeat (destruct name as [|? name];
          [discriminate H | first [discriminate H | injection H as _ H]]).
Qed.

Lemma editor_export (mime_type : string) :
  String.prefix EDITOR_PREFIX mime_type = true →
  export_mime mime_type = "application/pdf".
Proof. unfold export_mime. by intros ->. Qed.

Lemma transfer_frame local rq st st' p :
  transfer_outcome local rq st st' →
  p ≠ local → p ≠ FAILED_FILE_PATH → p ≠ UPLOADED_FILE_PATH →
  fs st' !! p = fs st !! p.
Proof.
  intros [] Hl Hf Hu; simpl;
    rewrite ?lookup_insert_ne, ?lookup_delete_ne, ?lookup_insert_ne by done;
    try done.
  all: by rewrite ?lookup_insert_ne, ?lookup_delete_ne, ?lookup_insert_ne by done.
Qed.

Lemma transfer_writes local rq st st' :
  transfer_outcome local rq st st' →
  ∃ evs, trace st' = trace st ++ evs
    ∧ ∀ p d, EvWrite p d ∈ evs → p = FAILED_FILE_PATH ∨ p = UPLOADED_FILE_PATH.
Proof.
  intros []; new_events; intros p d0 Hin.
  all: repeat (apply elem_of_cons in Hin as [Hin | Hin]; simplify_eq/=).
  all: try (by apply elem_of_nil in Hin).
  all: auto.
Qed.

(** C10. For a descriptor whose metadata carry a MIME type with the
    editor prefix other than the folder type, the MIME type that is
    classified is ["application/pdf"], the classification is
    [FILE_TYPE_PDF], the iteration never writes the Unsupported ledger,
    and (when the Uploaded ledger can be read) leaves its file as it
    was. *)
Theorem editor_never_unsupported (E : env) (item : drive_item)
    (m : drive_meta) (st : state) (r : res unit) (st' : state) :
  drive_get E (trace st) (item_id item) = Ok m →
  String.prefix EDITOR_PREFIX (meta_mimeType m) = true →
  meta_mimeType m ≠ FOLDER_MIME →
  process_item E (call_catalog_api E) item st = (r, st') →
  export_mime (meta_mimeType m) = "application/pdf"
  ∧ get_file_type (export_mime (meta_mimeType m)) = "FILE_TYPE_PDF"
  ∧ (∃ evs, trace st' = trace st ++ evs
       ∧ ∀ d, EvWrite UNSUPPORTED_FILE_PATH d ∉ evs)
  ∧ ((∃ b, already_uploaded item st = Ok b) →
     fs st' !! UNSUPPORTED_FILE_PATH = fs st !! UNSUPPORTED_FILE_PATH).
Proof.
  intros Hget Hed Hnf H.
  pose proof (editor_export _ Hed) as Hx.
  assert (Hpdf : get_file_type (export_mime (meta_mimeType m)) = "FILE_TYPE_PDF")
    by (by rewrite Hx).
  split; [done |]. split; [done |].
  apply process_item_outcomes in H.
  destruct H as [e r st' Hs Hh | _ | e r st' _ Hg Hh | m' _ Hg Hfm | m' v _ Hg _ Hn
                | m' r st' _ Hg _ Hn Hh | m' st' _ Hg _ _ Ht];
    try (rewrite Hget in Hg; simplify_eq);
    try (rewrite Hpdf in Hn; discriminate).
  - split.
    + apply handler_events in Hh as [Hh | [l Hh]]; rewrite Hh; new_events;
        intros d Hin; set_solver.
    + intros [b Hb]. congruence.
  - split; [new_events; intros d Hin; set_solver | done].
  - assert (Hne : UNSUPPORTED_FILE_PATH ≠ local_name m').
    { unfold local_name. rewrite Hed. intros Heq. symmetry in Heq.
      by apply pdf_name_not_ledger in Heq. }
    split.
    + apply transfer_writes in Ht as (evs & Htr & Hw).
      exists (EvGet (item_id item) :: evs). split.
      * rewrite Htr. simpl. by rewrite <- app_assoc.
      * intros d Hin. apply elem_of_cons in Hin as [Hin | Hin]; [done |].
        apply Hw in Hin as [Hin | Hin]; discriminate.
    + intros _. by rewrite (transfer_frame _ _ _ _ _ Ht).
Qed.

Lemma editor_never_unsupported_witness :
  let run := process_item E_doc (call_catalog_api E_doc) item_f3 empty_state in
  drive_get E_doc (trace empty_state) (item_id item_f3) = Ok meta_doc
  ∧ String.prefix EDITOR_PREFIX (meta_mimeType meta_doc) = true
  ∧ meta_mimeType meta_doc ≠ FOLDER_MIME
  ∧ run = (Ok tt, snd run)
  ∧ export_mime (meta_mimeType meta_doc) = "application/pdf"
  ∧ get_file_type (export_mime (meta_mimeType meta_doc)) = "FILE_TYPE_PDF"
  ∧ (∃ evs, trace (snd run) = trace empty_state ++ evs
       ∧ ∀ d, EvWrite UNSUPPORTED_FILE_PATH d ∉ evs)
  ∧ ((∃ b, already_uploaded item_f3 empty_state = Ok b) →
     fs (snd run) !! UNSUPPORTED_FILE_PATH
     = fs empty_state !! UNSUPPORTED_FILE_PATH).
Proof.
  split; [reflexivity |]. split; [reflexivity |]. split; [discriminate |].
  split; [vm_compute; reflexivity |].
  apply (editor_never_unsupported E_doc item_f3 meta_doc empty_state (Ok tt));
    [reflexivity | reflexivity | discriminate | vm_compute; reflexivity].
Defined.

(** ** C5: a second run over uploaded files does nothing *)

Lemma ledger_ext p st st' :
  fs st' !! p = fs st !! p → ledger p st' = ledger p st.
Proof.
  intros Heq.
  unfold ledger, load_uploaded_files, bind, path_exists, read_file, lift, ret.
  rewrite Heq. case_bool_decide; [| done].
  simpl. rewrite Heq. by destruct (fs st !! p) as [f|]; [destruct (json_load _) |].
Qed.

Lemma process_item_skipped E c item st :
  already_uploaded item st = Ok true →
  process_item E c item st = (Ok tt, entered item st).
Proof.
  intros Hseen. unfold process_item, item_body.
  rewrite try_except_bind.
  change (set_file_id (item_id item) st) with (Ok tt, entered item st).
  cbv beta iota.
  rewrite try_except_bind, load_uploaded_files_ledger, ledger_entered.
  unfold already_uploaded in Hseen.
  destruct (ledger UPLOADED_FILE_PATH st) as [v|e]; [| done].
  rewrite try_except_bind. unfold lift at 1. by rewrite Hseen.
Qed.

Lemma for_items_skipped E c items st :
  (∀ it st0, it ∈ items → fs st0 = fs st → already_uploaded it st0 = Ok true) →
  ∃ f, for_items E c items st = (Ok tt, with_frame f st).
Proof.
  revert st. induction items as [|it items IH]; intros st Hall.
  - exists (frame st). by destruct st.
  - simpl. unfold bind.
    rewrite process_item_skipped by (apply Hall; [by left | done]).
    destruct (IH (entered it st)) as [f Hf].
    { intros it' st0 Hin Hfs. apply Hall; [by right | done]. }
    exists f. by rewrite Hf.
Qed.

Lemma already_uploaded_ext item st st' :
  fs st' !! UPLOADED_FILE_PATH = fs st !! UPLOADED_FILE_PATH →
  already_uploaded item st' = already_uploaded item st.
Proof. intros H. unfold already_uploaded. by rewrite (ledger_ext _ _ _ H). Qed.

(** C5. When every listed id is in the Uploaded ledger, each descriptor
    is skipped right after the ledger test (nothing but [file_id] changes:
    no metadata request, no classification, no transfer, no upload, no
    trigger), and the whole run returns normally, leaves every file other
    than the checkpoint as it was (so the three ledgers read as before)
    and adds only start-of-run events to the trace. *)
Theorem rerun_all_uploaded (E : env) (items : list drive_item)
    (l : list json) (depth : nat) (st : state) :
  (∀ h, drive_build E h = None) →
  (∀ h q, drive_list E h q = Ok items) →
  ledger UPLOADED_FILE_PATH st = Ok (JArr l) →
  (∀ it, it ∈ items → JStr (item_id it) ∈ l) →
  (∀ it st0, it ∈ items → ledger UPLOADED_FILE_PATH st0 = Ok (JArr l) →
     process_item E (call_catalog_api E) it st0 = (Ok tt, entered it st0))
  ∧ ∃ st', main E (S depth) st = (Ok tt, st')
      ∧ (∀ p, p ≠ TIME_FILE_PATH → fs st' !! p = fs st !! p)
      ∧ ledger UPLOADED_FILE_PATH st' = ledger UPLOADED_FILE_PATH st
      ∧ ledger FAILED_FILE_PATH st' = ledger FAILED_FILE_PATH st
      ∧ ledger UNSUPPORTED_FILE_PATH st' = ledger UNSUPPORTED_FILE_PATH st
      ∧ ∃ evs, trace st' = trace st ++ evs ∧ Forall bookkeeping evs.
Proof.
  intros Hbuild Hlist Hl Hin.
  assert (Hseen : ∀ it st0, it ∈ items →
            ledger UPLOADED_FILE_PATH st0 = Ok (JArr l) →
            already_uploaded it st0 = Ok true).
  { intros it st0 Hit Hl0. unfold already_uploaded. rewrite Hl0. simpl.
    f_equal. apply existsb_is_str. by apply Hin. }
  split; [intros it st0 Hit Hl0; apply process_item_skipped; by apply Hseen |].
  unfold main. simpl. unfold bind at 1, new_frame, try_except, run_once.
  unfold bind at 1, build. rewrite Hbuild.
  set (st1 := log EvBuild (with_frame no_locals st)).
  unfold bind at 1.
  assert (Hres : ∃ t st2, resolve_checkpoint E st1 = (Ok t, st2)
            ∧ (∀ p, p ≠ TIME_FILE_PATH → fs st2 !! p = fs st !! p)
            ∧ ∃ evs, trace st2 = trace st ++ evs ∧ Forall bookkeeping evs).
  { destruct (resolve_checkpoint_outcomes E st1) as [(t & _ & _ & ->) | [_ ->]].
    - exists t, st1. split; [done |]. split; [done |].
      exists [EvBuild]. split; [done |]. repeat constructor.
    - eexists _, _. split; [done |]. split.
      + intros p Hp. simpl. by rewrite lookup_insert_ne.
      + exists [EvBuild; EvNow;
                EvWrite TIME_FILE_PATH (FText (current_time E st1))].
        split; [simpl; by rewrite <- !app_assoc |].
        repeat constructor. }
  destruct Hres as (t & st2 & -> & Hfs & evs & Htr & Hev).
  unfold bind at 1, files_list. rewrite Hlist.
  set (st3 := log (EvList t) st2).
  destruct (for_items_skipped E (call_catalog_api E) items st3) as [f Hf].
  { intros it st0 Hit Hfs0. apply Hseen; [done |].
    rewrite <- Hl. apply ledger_ext. rewrite Hfs0. by apply Hfs. }
  exists (with_frame f st3). split.
  { destruct items;
      [change (for_items _ _ [] st3) with (ret tt st3) in Hf |];
      by rewrite Hf. }
  split; [done |].
  repeat split; try (apply ledger_ext; by apply Hfs).
  exists (evs ++ [EvList t]). split.
  - simpl. by rewrite Htr, <- app_assoc.
  - apply Forall_app. split; [done |]. repeat constructor.
Qed.

Lemma rerun_all_uploaded_witness :
  (∀ h, drive_build E_spec h = None)
  ∧ (∀ h q, drive_list E_spec h q = Ok [item_f1; item_f2])
  ∧ ledger UPLOADED_FILE_PATH synced_state = Ok (JArr [JStr "f1"; JStr "f2"])
  ∧ (∀ it, it ∈ [item_f1; item_f2] →
       JStr (item_id it) ∈ [JStr "f1"; JStr "f2"])
  ∧ ∃ st', main E_spec 1 synced_state = (Ok tt, st')
      ∧ (∀ p, p ≠ TIME_FILE_PATH → fs st' !! p = fs synced_state !! p)
      ∧ ledger UPLOADED_FILE_PATH st' = ledger UPLOADED_FILE_PATH synced_state
      ∧ ledger FAILED_FILE_PATH st' = ledger FAILED_FILE_PATH synced_state
      ∧ ledger UNSUPPORTED_FILE_PATH st'
        = ledger UNSUPPORTED_FILE_PATH synced_state
      ∧ ∃ evs, trace st' = trace synced_state ++ evs ∧ Forall bookkeeping evs.
Proof.
  assert (Hin : ∀ it, it ∈ [item_f1; item_f2] →
            JStr (item_id it) ∈ [JStr "f1"; JStr "f2"]).
  { intros it Hit.
    apply elem_of_cons in Hit as [-> | Hit]; [by left |].
    apply elem_of_cons in Hit as [-> | Hit]; [right; by left |].
    by apply elem_of_nil in Hit. }
  split; [reflexivity |]. split; [reflexivity |]. split; [reflexivity |].
  split; [exact Hin |].
  apply (rerun_all_uploaded E_spec [item_f1; item_f2] [JStr "f1"; JStr "f2"]
           0 synced_state); [reflexivity | reflexivity | reflexivity | exact Hin].
Defined.

(** ** C1: the checkpoint on a first run *)

(** C1 (amended). When the checkpoint read yields absent at the start of
    a run, the orchestrator computes the current time, writes it to the
    checkpoint file at once and uses it as the bound of the listing:
    right after this step a checkpoint read returns that time, no other
    file has changed, and the run goes on with the listing query for that
    time. *)
Theorem checkpoint_initialised (E : env) (st : state) :
  read_modified_time_from_file E st = (Ok None, st) →
  drive_build E (trace st) = None →
  let st0 := log EvBuild st in
  let now := current_time E st0 in
  let st1 := initialised now st0 in
  resolve_checkpoint E st0 = (Ok now, st1)
  ∧ content st1 TIME_FILE_PATH = Some (FText now)
  ∧ read_modified_time_from_file E st1 = (Ok (Some now), st1)
  ∧ (∀ p, p ≠ TIME_FILE_PATH → fs st1 !! p = fs st !! p)
  ∧ ∀ r st', run_once E (call_catalog_api E) st = (r, st') →
      ∃ evs, trace st'
             = trace st ++ [EvBuild; EvNow; EvWrite TIME_FILE_PATH (FText now);
                            EvList now] ++ evs.
Proof.
  intros Hread Hbuild st0 now st1.
  rewrite read_modified_time_checkpoint in Hread. injection Hread as Hread.
  assert (Hres : resolve_checkpoint E st0 = (Ok now, st1)).
  { destruct (resolve_checkpoint_outcomes E st0) as [(t & Ht & _) | [_ ->]];
      [| done].
    unfold checkpoint, content in Ht, Hread. simpl in Ht.
    rewrite Hread in Ht. discriminate. }
  assert (Hc : content st1 TIME_FILE_PATH = Some (FText now))
    by (unfold content; simpl; by rewrite lookup_insert_eq).
  split; [done |]. split; [done |]. split.
  { rewrite read_modified_time_checkpoint. unfold checkpoint. rewrite Hc.
    simpl. unfold now, current_time. by rewrite strip_format_time. }
  split; [intros p Hp; simpl; by rewrite lookup_insert_ne |].
  intros r st'.
  unfold run_once, bind at 1, build. rewrite Hbuild.
  unfold bind at 1. fold st0. rewrite Hres.
  unfold bind at 1, files_list.
  set (st3 := log (EvList now) st1).
  assert (H3 : trace st3 = trace st ++ [EvBuild; EvNow;
                 EvWrite TIME_FILE_PATH (FText now); EvList now])
    by (simpl; by rewrite <- !app_assoc).
  destruct (drive_list E _ now) as [items|e].
  - destruct items as [|it items].
    + intros [= <- <-]. exists []. by rewrite H3, app_nil_r.
    + intros H. apply for_items_events in H as [evs ->].
      rewrite H3, <- !app_assoc. eauto.
  - intros [= <- <-]. exists []. by rewrite H3, app_nil_r.
Qed.

Lemma checkpoint_initialised_witness :
  read_modified_time_from_file E_spec empty_state = (Ok None, empty_state)
  ∧ drive_build E_spec (trace empty_state) = None
  ∧ let st0 := log EvBuild empty_state in
    let now := current_time E_spec st0 in
    let st1 := initialised now st0 in
    resolve_checkpoint E_spec st0 = (Ok now, st1)
    ∧ content st1 TIME_FILE_PATH = Some (FText now)
    ∧ read_modified_time_from_file E_spec st1 = (Ok (Some now), st1)
    ∧ (∀ p, p ≠ TIME_FILE_PATH → fs st1 !! p = fs empty_state !! p)
    ∧ ∀ r st', run_once E_spec (call_catalog_api E_spec) empty_state = (r, st') →
        ∃ evs, trace st'
               = trace empty_state ++ [EvBuild; EvNow; EvWrite TIME_FILE_PATH (FText now);
                              EvList now] ++ evs.
Proof.
  split; [reflexivity |]. split; [reflexivity |].
  apply (checkpoint_initialised E_spec empty_state); reflexivity.
Defined.

(** C1, as stated, fails: on a first run (no checkpoint file) the read
    yields absent before the run and the saved time after it. *)
Lemma checkpoint_written_on_first_run :
  let st' := snd (main E_spec 3 empty_state) in
  fst (read_modified_time_from_file E_spec empty_state) = Ok None
  ∧ fst (main E_spec 3 empty_state) = Ok tt
  ∧ fst (read_modified_time_from_file E_spec st')
    = Ok (Some "2024-05-17T08:30:15.004Z")
  ∧ fst (read_modified_time_from_file E_spec st') ≠ Ok None.
Proof. repeat split; vm_compute; [reflexivity .. | discriminate]. Qed.

(** ** C9: the two variants *)

Lemma call_catalog_api_agree E method url data name st :
  no_http_error E →
  method = "POST" ∨ method = "PUT" →
  call_catalog_api E url method data name st
  = Script.call_catalog_api E url method data name st.
Proof.
  intros Hok Hm.
  unfold call_catalog_api, Script.call_catalog_api, bind, requests_request, ret.
  destruct Hm as [-> | ->]; simpl.
  all: destruct (http_send E (trace st) _) as [r|e] eqn:Hr; [| done].
  all: apply Hok in Hr; unfold raise_for_status.
  all: replace ((400 <=? status_code r)%Z && (status_code r <? 600)%Z)
         with false by (symmetry; apply andb_false_iff; lia).
  all: reflexivity.
Qed.

Lemma bind_ext {A B} (m1 m2 : M A) (k1 k2 : A → M B) st :
  m1 st = m2 st → (∀ a s, k1 a s = k2 a s) → bind m1 k1 st = bind m2 k2 st.
Proof. intros Hm Hk. unfold bind. rewrite Hm. by destruct (m2 st) as [[a|e] s]. Qed.

Lemma try_except_ext {A} (m1 m2 : M A) (h1 h2 : exn → M A) st :
  m1 st = m2 st → (∀ e s, h1 e s = h2 e s) →
  try_except m1 h1 st = try_except m2 h2 st.
Proof.
  intros Hm Hh. unfold try_except. rewrite Hm. by destruct (m2 st) as [[a|e] s].
Qed.

Section Agree.
Variable E : env.
Variables c1 c2 : string → string → option json → string → M json.
Hypothesis Hc : ∀ url data name st,
  c1 url "POST" data name st = c2 url "POST" data name st.

Lemma upload_and_process_ext id local ft rq st :
  upload_and_process E c1 id local ft rq st
  = upload_and_process E c2 id local ft rq st.
Proof.
  unfold upload_and_process.
  apply bind_ext; [done | intros _ s1].
  apply bind_ext; [done | intros fd s2].
  apply bind_ext; [apply Hc | intros uf s3].
  apply bind_ext; [done | intros f s4].
  apply bind_ext; [done | intros uid s5].
  destruct (negb (truthy uid)); [done |].
  apply bind_ext; [apply Hc | done].
Qed.

Lemma process_item_ext item st :
  process_item E c1 item st = process_item E c2 item st.
Proof.
  unfold process_item. apply try_except_ext; [| done].
  unfold item_body.
  apply bind_ext; [done | intros _ s1].
  apply bind_ext; [done | intros up s2].
  apply bind_ext; [done | intros seen s3].
  destruct seen; [done |].
  apply bind_ext; [done | intros m s4].
  apply bind_ext; [done | intros _ s5].
  apply bind_ext; [done | intros _ s6].
  destruct (String.eqb _ _); [done |].
  destruct (String.eqb _ _); [done |].
  apply upload_and_process_ext.
Qed.

Lemma for_items_ext items st :
  for_items E c1 items st = for_items E c2 items st.
Proof.
  revert st. induction items as [|it items IH]; intros st; [done |].
  simpl. apply bind_ext; [apply process_item_ext | auto].
Qed.

Lemma run_once_ext st : run_once E c1 st = run_once E c2 st.
Proof.
  unfold run_once.
  apply bind_ext; [done | intros _ s1].
  apply bind_ext; [done | intros q s2].
  apply bind_ext; [done | intros items s3].
  destruct items; [done | apply for_items_ext].
Qed.

Lemma run_ext depth st : run E c1 depth st = run E c2 depth st.
Proof.
  revert st. induction depth as [|d IH]; intros st; [done |].
  simpl. apply bind_ext; [done | intros _ s1].
  apply try_except_ext; [apply run_once_ext | auto].
Qed.
End Agree.

(** C9 (amended). When the Catalog never answers with a status from 400
    to 599, the two [call_catalog_api] agree on every [POST] and [PUT]
    call, and the two entry points compute the same result from every
    state. *)
Theorem variants_agree_without_http_errors (E : env) :
  no_http_error E →
  (∀ method url data name st, method = "POST" ∨ method = "PUT" →
     call_catalog_api E url method data name st
     = Script.call_catalog_api E url method data name st)
  ∧ ∀ depth st, main E depth st = script_main E depth st.
Proof.
  intros Hok. split.
  - intros method url data name st Hm. by apply call_catalog_api_agree.
  - intros depth st. unfold main, script_main. apply run_ext.
    intros url data name s. apply call_catalog_api_agree; auto.
Qed.

Lemma E_spec_no_http_error : no_http_error E_spec.
Proof.
  intros h rq r. simpl. unfold respond.
  destruct (String.eqb _ _); intros [= <-]; simpl; lia.
Defined.

Lemma variants_agree_witness :
  no_http_error E_spec
  ∧ (∀ method url data name st, method = "POST" ∨ method = "PUT" →
       call_catalog_api E_spec url method data name st
       = Script.call_catalog_api E_spec url method data name st)
  ∧ ∀ depth st, main E_spec depth st = script_main E_spec depth st.
Proof.
  split; [exact E_spec_no_http_error |].
  apply (variants_agree_without_http_errors E_spec E_spec_no_http_error).
Defined.

(** C9, as stated, fails: on a 500 answer with a JSON body the
    [call_catalog_api] of [helpers.py] raises [HTTPError] where the one
    of [script.py] returns the body, and the two entry points part ways:
    the first leaves the Failed ledger empty, the second records [f1]
    in it. *)
Lemma variants_differ_on_http_error :
  call_catalog_api E_http_500 UPLOAD_FILES_URL "POST" None "Upload Files"
    empty_state
  ≠ Script.call_catalog_api E_http_500 UPLOAD_FILES_URL "POST" None
      "Upload Files" empty_state
  ∧ fst (call_catalog_api E_http_500 UPLOAD_FILES_URL "POST" None
           "Upload Files" empty_state) = Raise HTTPError
  ∧ fst (Script.call_catalog_api E_http_500 UPLOAD_FILES_URL "POST" None
           "Upload Files" empty_state)
    = Ok (JObj [("message", JStr "internal error")])
  ∧ ledger FAILED_FILE_PATH (snd (main E_http_500 3 empty_state))
    = Ok (JArr [])
  ∧ ledger FAILED_FILE_PATH (snd (script_main E_http_500 3 empty_state))
    = Ok (JArr [JStr "f1"])
  ∧ main E_http_500 3 empty_state ≠ script_main E_http_500 3 empty_state.
Proof.
  split; [vm_compute; discriminate |].
  repeat split; try (vm_compute; reflexivity).
  intros Heq.
  assert (H : ledger FAILED_FILE_PATH (snd (main E_http_500 3 empty_state))
              = ledger FAILED_FILE_PATH
                  (snd (script_main E_http_500 3 empty_state)))
    by (by rewrite Heq).
  vm_compute in H. discriminate H.
Qed.

(** ** C2: the per-file boundary *)

(** The per-file handler lets an exception out of the loop only when it
    trips over a variable that no iteration has bound yet. *)
Lemma process_item_result (E : env) (item : drive_item) (st : state)
    (r : res unit) (st' : state) :
  process_item E (call_catalog_api E) item st = (r, st') →
  r = Ok tt
  ∨ (r = Raise UnboundLocalError
     ∧ (file_name (frame st) = None ∨ local_file_name (frame st) = None)).
Proof.
  intros H. apply process_item_outcomes in H.
  destruct H as [e r st' _ Hh | _ | e r st' _ _ Hh | m _ _ _ | m v _ _ _ _
                | m r st' _ _ _ _ Hh | m st' _ _ _ _ Ht]; auto.
  all: destruct Hh as [[Hn | [Hi | Hl]] | |]; auto; try discriminate.
Qed.

(** C2 (defect of the code). The metadata request of the first listed
    file fails: the per-file handler formats [file_name], which no
    iteration has bound yet, and raises [UnboundLocalError]; the exception
    leaves the loop (the second file is never looked at), reaches the
    handler of the run and restarts the run, here until the interpreter
    refuses to recurse. *)
Theorem metadata_failure_escapes_loop :
  process_item E_metadata_down (call_catalog_api E_metadata_down) item_f1
    empty_state
  = (Raise UnboundLocalError,
     log (EvGet "f1") (entered item_f1 empty_state))
  ∧ for_items E_metadata_down (call_catalog_api E_metadata_down)
      [item_f1; item_f2] empty_state
    = (Raise UnboundLocalError,
       log (EvGet "f1") (entered item_f1 empty_state))
  ∧ fst (main E_metadata_down 3 empty_state) = Raise RecursionError
  ∧ trace (snd (main E_metadata_down 3 empty_state))
    = [EvBuild; EvNow;
       EvWrite TIME_FILE_PATH (FText "2024-05-17T08:30:15.004Z");
       EvList "2024-05-17T08:30:15.004Z"; EvGet "f1";
       EvBuild; EvList "2024-05-17T08:30:15.004Z"; EvGet "f1";
       EvBuild; EvList "2024-05-17T08:30:15.004Z"; EvGet "f1"].
Proof. repeat split; vm_compute; reflexivity. Qed.

(** ** C4: responses without an identifier or a status *)

(** C4 (defect of the code). An upload answered 200 with a [file] object
    that has no [fileUid] is recorded in the Failed ledger, the local file
    is removed and no trigger is sent; but an upload answered 200 with
    [{"file": null}], and a trigger answered 200 with [{"files": []}],
    make the extraction raise ([AttributeError], [IndexError]): the
    per-file handler removes the local file and records nothing, so the
    Failed ledger is not even created. *)
Theorem malformed_response_not_recorded :
  let a := snd (main E_no_uid 3 empty_state) in
  let b := snd (main E_null_file 3 empty_state) in
  let c := snd (main E_empty_files 3 empty_state) in
  (ledger FAILED_FILE_PATH a = Ok (JArr [JStr "f1"])
   ∧ content a "report.pdf" = None
   ∧ http_urls (trace a) = [UPLOAD_FILES_URL])
  ∧ (ledger FAILED_FILE_PATH b = Ok (JArr [])
     ∧ content b FAILED_FILE_PATH = None
     ∧ content b "report.pdf" = None
     ∧ http_urls (trace b) = [UPLOAD_FILES_URL])
  ∧ (ledger FAILED_FILE_PATH c = Ok (JArr [])
     ∧ content c FAILED_FILE_PATH = None
     ∧ content c "report.pdf" = None
     ∧ http_urls (trace c) = [UPLOAD_FILES_URL; PROCESS_FILES_URL]).
Proof. repeat split; vm_compute; reflexivity. Qed.

(** * Further properties *)

(** ** Time stamps and the checkpoint file *)

(** X1. The time stamp of [get_current_time_formatted] is the date and
    the time of day on fixed widths, then the milliseconds, which are the
    microseconds divided by 1000 and truncated (the slice [[:-3]] drops
    digits, it does not round), then [Z]: 24 characters, none of them
    white space at either end, so that [strip] leaves it as it is. *)
Theorem format_time_shape (dt : datetime) :
  format_time dt
  = zpad 4 (year dt) +:+ "-" +:+ zpad 2 (month dt) +:+ "-" +:+ zpad 2 (day dt)
    +:+ "T" +:+ zpad 2 (hour dt) +:+ ":" +:+ zpad 2 (minute dt) +:+ ":"
    +:+ zpad 2 (second dt) +:+ "." +:+ zpad 3 (microsecond dt / 1000) +:+ "Z"
  ∧ String.length (format_time dt) = 24
  ∧ strip (format_time dt) = format_time dt.
Proof.
  assert (Hdiv : microsecond dt / 10 / 10 / 10 = microsecond dt / 1000)
    by (rewrite !Nat.Div0.div_div; reflexivity).
  split; [| split; [| apply strip_format_time]].
  - unfold format_time, strftime, drop_last3. rewrite <- Hdiv.
    cbv -[digit Nat.div]. reflexivity.
  - unfold format_time, strftime, drop_last3.
    cbv -[digit Nat.div]. reflexivity.
Qed.

Lemma lstrip_head (s : string) :
  lstrip s = "" ∨ ∃ c r, lstrip s = String c r ∧ isspace c = false.
Proof.
  induction s as [|c s IH]; simpl; [by left |].
  destruct (isspace c) eqn:Hc; [done | right; eauto].
Qed.

Lemma rstrip_idempotent (s : string) : rstrip (rstrip s) = rstrip s.
Proof.
  induction s as [|c s IH]; simpl; [done |].
  destruct (rstrip s) as [|c' r] eqn:Hr.
  - destruct (isspace c) eqn:Hc; simpl; [reflexivity | by rewrite Hc].
  - simpl in IH. simpl.
    destruct (rstrip r) as [|c'' r'] eqn:Hr'.
    + destruct (isspace c') eqn:Hc'; [discriminate | by injection IH as <-].
    + by injection IH as <-.
Qed.

Lemma rstrip_head (c : Ascii.ascii) (r : string) :
  isspace c = false → ∃ r', rstrip (String c r) = String c r'.
Proof.
  intros Hc. simpl. destruct (rstrip r); [rewrite Hc |]; eauto.
Qed.

Lemma strip_idempotent (s : string) : strip (strip s) = strip s.
Proof.
  unfold strip. destruct (lstrip_head s) as [-> | (c & r & -> & Hc)]; [done |].
  destruct (rstrip_head c r Hc) as [r' Hr]. rewrite Hr at 1.
  simpl lstrip. rewrite Hc. rewrite <- Hr. apply rstrip_idempotent.
Qed.

(** X2. Saving a time, an ASCII text without carriage return, and
    reading the checkpoint back yields the saved text stripped of
    surrounding white space; saving what was read and reading again
    yields the same value; no other file is touched. *)
Theorem checkpoint_round_trip (E : env) (t : string) (st : state) :
  ascii_text t = true →
  let st1 := snd (save_modified_time_to_file t st) in
  let st2 := snd (save_modified_time_to_file (strip t) st1) in
  fst (save_modified_time_to_file t st) = Ok tt
  ∧ read_modified_time_from_file E st1 = (Ok (Some (strip t)), st1)
  ∧ read_modified_time_from_file E st2 = (Ok (Some (strip t)), st2)
  ∧ (∀ p, p ≠ TIME_FILE_PATH → fs st1 !! p = fs st !! p).
Proof.
  intros _ st1 st2. split; [done |].
  assert (Hr : ∀ u s, read_modified_time_from_file E
                        (snd (save_modified_time_to_file u s))
                      = (Ok (Some (strip u)),
                         snd (save_modified_time_to_file u s))).
  { intros u s. rewrite read_modified_time_checkpoint.
    unfold checkpoint, content. simpl. by rewrite lookup_insert_eq. }
  split; [apply Hr |]. split.
  - unfold st2. rewrite Hr. by rewrite strip_idempotent.
  - intros p Hp. simpl. by rewrite lookup_insert_ne.
Qed.

Lemma checkpoint_round_trip_witness :
  let t := " 2024-05-17T08:00:00.000Z " in
  let st1 := snd (save_modified_time_to_file t empty_state) in
  let st2 := snd (save_modified_time_to_file (strip t) st1) in
  ascii_text t = true
  ∧ fst (save_modified_time_to_file t empty_state) = Ok tt
  ∧ read_modified_time_from_file E_spec st1 = (Ok (Some (strip t)), st1)
  ∧ read_modified_time_from_file E_spec st2 = (Ok (Some (strip t)), st2)
  ∧ (∀ p, p ≠ TIME_FILE_PATH → fs st1 !! p = fs empty_state !! p).
Proof.
  split; [reflexivity |].
  apply (checkpoint_round_trip E_spec " 2024-05-17T08:00:00.000Z "
           empty_state).
  reflexivity.
Defined.

(** X3. A checkpoint file that holds white space only counts as no
    checkpoint: the read yields the empty string, which the test of line
    50 takes as absent, so the current time is computed, written over the
    file and used, and the next read yields it. *)
Theorem blank_checkpoint_reinitialised (E : env) (s : string) (st : state) :
  content st TIME_FILE_PATH = Some (FText s) →
  strip s = "" →
  let now := current_time E st in
  resolve_checkpoint E st = (Ok now, initialised now st)
  ∧ content (initialised now st) TIME_FILE_PATH = Some (FText now)
  ∧ checkpoint E (initialised now st) = Some now.
Proof.
  intros Hc Hs now.
  assert (Hck : checkpoint E st = Some "")
    by (unfold checkpoint; rewrite Hc; simpl; by rewrite Hs).
  destruct (resolve_checkpoint_outcomes E st) as [(t & Ht & Hne & _) | [_ H]];
    [congruence |].
  split; [done |].
  assert (Hc' : content (initialised now st) TIME_FILE_PATH = Some (FText now))
    by (unfold content; simpl; by rewrite lookup_insert_eq).
  split; [done |]. unfold checkpoint. rewrite Hc'. simpl.
  unfold now, current_time. by rewrite strip_format_time.
Qed.

Lemma blank_checkpoint_reinitialised_witness :
  let now := current_time E_spec blank_state in
  content blank_state TIME_FILE_PATH = Some (FText "  ")
  ∧ strip "  " = ""
  ∧ resolve_checkpoint E_spec blank_state
    = (Ok now, initialised now blank_state)
  ∧ content (initialised now blank_state) TIME_FILE_PATH = Some (FText now)
  ∧ checkpoint E_spec (initialised now blank_state) = Some now.
Proof.
  split; [reflexivity |]. split; [reflexivity |].
  apply (blank_checkpoint_reinitialised E_spec "  " blank_state);
    reflexivity.
Defined.

(** ** The ledgers *)

(** X4. [load_uploaded_files] after [save_uploaded_files] on the same
    path returns the value that was saved, whatever it is, and the other
    ledgers read as they did before. *)
Theorem ledger_round_trip (uploaded_files : json) (file_path : string)
    (st : state) :
  let st1 := snd (save_uploaded_files uploaded_files file_path st) in
  fst (save_uploaded_files uploaded_files file_path st) = Ok tt
  ∧ load_uploaded_files file_path st1 = (Ok uploaded_files, st1)
  ∧ (∀ q, q ≠ file_path → load_uploaded_files q st1
                          = (ledger q st, st1)).
Proof.
  intros st1. split; [done |]. split.
  - rewrite load_uploaded_files_ledger. f_equal.
    unfold st1. simpl. rewrite ledger_log. apply ledger_put.
  - intros q Hq. rewrite load_uploaded_files_ledger. f_equal.
    apply ledger_ext. simpl. by rewrite lookup_insert_ne.
Qed.

(** X5. On a ledger that reads as a list without duplicates,
    [append_file_id] succeeds and leaves a list without duplicates that
    extends the old one at its end, holds the id, holds nothing else new
    and is longer by at most one. *)
Theorem append_file_id_grows (file_id file_path : string) (l : list json)
    (st : state) :
  ledger file_path st = Ok (JArr l) →
  NoDup l →
  ∃ l' st',
    append_file_id file_id file_path st = (Ok tt, st')
    ∧ ledger file_path st' = Ok (JArr l')
    ∧ NoDup l'
    ∧ l `prefix_of` l'
    ∧ JStr file_id ∈ l'
    ∧ (∀ x, x ∈ l' → x ∈ l ∨ x = JStr file_id)
    ∧ (length l ≤ length l' ≤ S (length l))%nat.
Proof.
  intros Hl Hnd.
  rewrite (append_file_id_list _ _ _ _ Hl).
  destruct (existsb (is_str file_id) l) eqn:Hex.
  - exists l. eexists. split; [done |].
    split; [rewrite ledger_log; apply ledger_put |].
    apply existsb_is_str in Hex. repeat split; auto; lia.
  - exists (l ++ [JStr file_id]). eexists. split; [done |].
    split; [rewrite ledger_log; apply ledger_put |].
    apply existsb_is_str_false in Hex. repeat split.
    + apply NoDup_app. split; [done |]. split; [| apply NoDup_singleton].
      intros x Hx Hx'. apply list_elem_of_singleton in Hx'. by subst.
    + by apply prefix_app_r.
    + apply elem_of_app. right. by left.
    + intros x Hx. apply elem_of_app in Hx as [Hx | Hx]; [by left |].
      right. by apply list_elem_of_singleton in Hx.
    + rewrite length_app. simpl. lia.
    + rewrite length_app. simpl. lia.
Qed.

Lemma append_file_id_grows_witness :
  ledger UPLOADED_FILE_PATH synced_state = Ok (JArr [JStr "f1"; JStr "f2"])
  ∧ NoDup [JStr "f1"; JStr "f2"]
  ∧ ∃ l' st',
      append_file_id "f3" UPLOADED_FILE_PATH synced_state = (Ok tt, st')
      ∧ ledger UPLOADED_FILE_PATH st' = Ok (JArr l')
      ∧ NoDup l'
      ∧ [JStr "f1"; JStr "f2"] `prefix_of` l'
      ∧ JStr "f3" ∈ l'
      ∧ (∀ x, x ∈ l' → x ∈ [JStr "f1"; JStr "f2"] ∨ x = JStr "f3")
      ∧ (length [JStr "f1"; JStr "f2"] ≤ length l'
         ≤ S (length [JStr "f1"; JStr "f2"]))%nat.
Proof.
  assert (Hnd : NoDup [JStr "f1"; JStr "f2"]).
  { apply NoDup_cons_2; [| apply NoDup_singleton].
    intros H. apply list_elem_of_singleton in H. discriminate H. }
  split; [reflexivity |]. split; [exact Hnd |].
  apply (append_file_id_grows "f3" UPLOADED_FILE_PATH
           [JStr "f1"; JStr "f2"] synced_state); [reflexivity | exact Hnd].
Defined.

(** X6. [append_file_id] touches the one ledger it is given: every other
    file and ledger is as before and so are the local variables; when it
    raises (the file is not a JSON object, or its [data] cannot take the
    id) nothing at all has changed, and when it returns it has written the
    file exactly once, with the list that the ledger then reads. *)
Theorem append_file_id_effect (file_id file_path : string) (st : state)
    (r : res unit) (st' : state) :
  append_file_id file_id file_path st = (r, st') →
  (∀ q, q ≠ file_path → fs st' !! q = fs st !! q ∧ ledger q st' = ledger q st)
  ∧ frame st' = frame st
  ∧ (∀ e, r = Raise e → st' = st)
  ∧ (r = Ok tt → ∃ v, trace st' = trace st ++ [EvWrite file_path (ledger_doc v)]
                      ∧ ledger file_path st' = Ok v).
Proof.
  intros H. apply append_file_id_outcomes in H as [(e & -> & ->) | (-> & v & ->)].
  - by repeat split.
  - split; [| split; [done | split; [done |]]].
    + intros q Hq.
      assert (Hfs : fs (saved file_path v st) !! q = fs st !! q)
        by (simpl; by rewrite lookup_insert_ne).
      split; [done | by apply ledger_ext].
    + intros _. exists v. split; [done |].
      unfold saved. rewrite ledger_log. apply ledger_put.
Qed.

Lemma append_file_id_effect_witness :
  let run := append_file_id "f3" FAILED_FILE_PATH synced_state in
  run = (Ok tt, snd run)
  ∧ (∀ q, q ≠ FAILED_FILE_PATH →
       fs (snd run) !! q = fs synced_state !! q
       ∧ ledger q (snd run) = ledger q synced_state)
  ∧ frame (snd run) = frame synced_state
  ∧ (∀ e, Ok tt = Raise e → snd run = synced_state)
  ∧ (Ok tt = Ok tt →
     ∃ v, trace (snd run)
          = trace synced_state ++ [EvWrite FAILED_FILE_PATH (ledger_doc v)]
        ∧ ledger FAILED_FILE_PATH (snd run) = Ok v).
Proof.
  split; [vm_compute; reflexivity |].
  apply (append_file_id_effect "f3" FAILED_FILE_PATH synced_state (Ok tt)).
  vm_compute; reflexivity.
Defined.

(** ** The table of file types *)

Lemma dict_get_found (k : string) (d : list (string * string))
    (dflt v : string) :
  dict_get k d dflt = v → v ≠ dflt → (k, v) ∈ d.
Proof.
  induction d as [|[k' v'] d IH]; simpl; [congruence |].
  destruct (String.eqb_spec k' k) as [-> | Hne].
  - intros -> _. by left.
  - intros Hv Hd. right. by apply IH.
Qed.

(** X7. No two MIME types share a Catalog file type: two MIME types
    with the same supported type are the same MIME type. *)
Theorem get_file_type_injective (mime1 mime2 : string) :
  get_file_type mime1 = get_file_type mime2 →
  get_file_type mime1 ≠ "none" →
  mime1 = mime2.
Proof.
  intros Heq Hne.
  pose proof (dict_get_found mime1 _ _ _ eq_refl Hne) as H1.
  assert (Hne2 : get_file_type mime2 ≠ "none") by congruence.
  pose proof (dict_get_found mime2 _ _ _ eq_refl Hne2) as H2.
  fold (get_file_type mime1) in H1. fold (get_file_type mime2) in H2.
  rewrite <- Heq in H2. clear Heq Hne Hne2.
  generalize dependent (get_file_type mime1). intros t H1 H2.
  unfold mime_type_to_file_type in *.
  repeat (apply elem_of_cons in H1 as [H1 | H1];
          [injection H1 as -> ->;
           repeat (apply elem_of_cons in H2 as [H2 | H2];
                   [by injection H2 as -> |]);
           by apply elem_of_nil in H2 |]).
  by apply elem_of_nil in H1.
Qed.

Lemma get_file_type_injective_witness :
  get_file_type "image/jpeg" = get_file_type "image/jpeg"
  ∧ get_file_type "image/jpeg" ≠ "none"
  ∧ "image/jpeg" = "image/jpeg".
Proof.
  split; [reflexivity |]. split; [vm_compute; discriminate |].
  apply (get_file_type_injective "image/jpeg" "image/jpeg");
    [reflexivity | vm_compute; discriminate].
Defined.

(** ** The Catalog client *)

Lemma bind_ok {A B} (m : M A) (k : A → M B) st a s1 :
  m st = (Ok a, s1) → bind m k st = k a s1.
Proof. intros H. unfold bind. by rewrite H. Qed.

Lemma bind_raise {A B} (m : M A) (k : A → M B) st e s1 :
  m st = (Raise e, s1) → bind m k st = (Raise e, s1).
Proof. intros H. unfold bind. by rewrite H. Qed.

Lemma try_except_ok {A} (m : M A) h st a s1 :
  m st = (Ok a, s1) → try_except m h st = (Ok a, s1).
Proof. intros H. unfold try_except. by rewrite H. Qed.

Lemma call_catalog_api_accepted E url method data name st v :
  accepted (http_send E (trace st)
              {| rq_method := method; rq_url := url; rq_json := data |}) v →
  call_catalog_api E url method data name st
  = (Ok v, sent {| rq_method := method; rq_url := url; rq_json := data |} st).
Proof.
  intros (resp & Hr & Hs & Hb).
  unfold call_catalog_api, bind, requests_request. rewrite Hr.
  unfold raise_for_status.
  replace ((400 <=? status_code resp)%Z && (status_code resp <? 600)%Z)
    with false by (symmetry; apply andb_false_iff; lia).
  unfold ret, response_json. by rewrite Hb.
Qed.

(** X8. [call_catalog_api] of [helpers.py] returns a document exactly
    when the request was answered, with a status outside 400-599 and a
    JSON body, and that body is the document; the request was then sent
    once, with the method, URL and payload given. *)
Theorem call_catalog_api_returns (E : env) (url method : string)
    (data : option json) (name : string) (st : state) (v : json)
    (st' : state) :
  call_catalog_api E url method data name st = (Ok v, st')
  ↔ accepted (http_send E (trace st)
                {| rq_method := method; rq_url := url; rq_json := data |}) v
    ∧ st' = sent {| rq_method := method; rq_url := url; rq_json := data |} st.
Proof.
  split.
  - unfold call_catalog_api, bind, requests_request.
    destruct (http_send E _ _) as [r|e] eqn:Hr; [| done].
    unfold raise_for_status.
    destruct ((400 <=? status_code r)%Z && (status_code r <? 600)%Z) eqn:Hs;
      [done |].
    unfold ret, response_json.
    destruct (body r) as [b|] eqn:Hb; [| done].
    intros [= <- <-]. split; [| done].
    exists r. split; [done |]. split; [| done].
    apply andb_false_iff in Hs. lia.
  - intros [Hacc ->]. by apply call_catalog_api_accepted.
Qed.

(** X9. [call_catalog_api] of [script.py] sends one request for each of
    the verbs GET, POST, PUT and DELETE, with the payload for POST and PUT
    only, and for any other verb sends nothing and fails on the unbound
    [response]; the one of [helpers.py] sends the request, payload
    included, whatever the verb. *)
Theorem script_call_requests (E : env) (url method : string)
    (data : option json) (name : string) (st : state) :
  snd (Script.call_catalog_api E url method data name st)
  = (if known_verb method then
       sent {| rq_method := method; rq_url := url;
               rq_json := if String.eqb method "POST" || String.eqb method "PUT"
                          then data else None |} st
     else st)
  ∧ (known_verb method = false →
     fst (Script.call_catalog_api E url method data name st)
     = Raise UnboundLocalError)
  ∧ snd (call_catalog_api E url method data name st)
    = sent {| rq_method := method; rq_url := url; rq_json := data |} st.
Proof.
  unfold Script.call_catalog_api, call_catalog_api, known_verb, bind,
    requests_request, ret.
  split; [| split].
  - destruct (String.eqb_spec method "GET") as [-> | _]; simpl.
    { destruct (http_send E _ _) as [r|]; simpl; [| done].
      unfold response_json, ret, raise. by destruct (body r). }
    destruct (String.eqb_spec method "POST") as [-> | _]; simpl.
    { destruct (http_send E _ _) as [r|]; simpl; [| done].
      unfold response_json, ret, raise. by destruct (body r). }
    destruct (String.eqb_spec method "PUT") as [-> | _]; simpl.
    { destruct (http_send E _ _) as [r|]; simpl; [| done].
      unfold response_json, ret, raise. by destruct (body r). }
    destruct (String.eqb_spec method "DELETE") as [-> | _]; simpl; [| done].
    { destruct (http_send E _ _) as [r|]; simpl; [| done].
      unfold response_json, ret, raise. by destruct (body r). }
  - intros Hk.
    destruct (String.eqb method "GET"); [done |].
    destruct (String.eqb method "POST"); [done |].
    destruct (String.eqb method "PUT"); [done |].
    by destruct (String.eqb method "DELETE").
  - destruct (http_send E _ _) as [r|]; [| done].
    unfold raise_for_status.
    destruct (_ && _); [done |]. simpl.
    unfold response_json, ret, raise. by destruct (body r).
Qed.

(** ** The routes of one iteration *)

Lemma append_file_id_with_id file_id path l st :
  ledger path st = Ok (JArr l) →
  append_file_id file_id path st
  = (Ok tt, saved path (JArr (with_id file_id l)) st).
Proof. intros H. by rewrite (append_file_id_list _ _ _ _ H). Qed.

Lemma os_remove_present path st :
  is_Some (fs st !! path) → os_remove path st = (Ok tt, removed path st).
Proof. intros [f Hf]. unfold os_remove. by rewrite Hf. Qed.

Lemma process_item_reaches_transfer E c item m st :
  already_uploaded item st = Ok false →
  drive_get E (trace st) (item_id item) = Ok m →
  meta_mimeType m ≠ FOLDER_MIME →
  get_file_type (export_mime (meta_mimeType m)) ≠ "none" →
  process_item E c item st
  = try_except
      (upload_and_process E c (item_id item) (local_name m)
         (get_file_type (export_mime (meta_mimeType m)))
         (media_request_for (item_id item) (meta_mimeType m)))
      item_handler (inspected item m st).
Proof.
  intros Hseen Hget Hnf Hft. unfold process_item, item_body.
  rewrite try_except_bind.
  change (set_file_id (item_id item) st) with (Ok tt, entered item st).
  cbv beta iota.
  rewrite try_except_bind, load_uploaded_files_ledger, ledger_entered.
  unfold already_uploaded in Hseen.
  destruct (ledger UPLOADED_FILE_PATH st) as [v|e]; [| done].
  rewrite try_except_bind. unfold lift at 1. rewrite Hseen.
  rewrite try_except_bind. unfold files_get at 1.
  change (trace (entered item st)) with (trace st). rewrite Hget.
  rewrite try_except_bind. unfold set_file_name at 1. cbv beta iota.
  rewrite try_except_bind. unfold set_local_file_name at 1. cbv beta iota.
  apply String.eqb_neq in Hnf, Hft. rewrite Hnf, Hft. reflexivity.
Qed.

(** X10. A listed folder that is not in the Uploaded ledger costs one
    metadata request and nothing else: the iteration returns normally, no
    file is written, and the handler variable [local_file_name] is left
    bound to the name with [.pdf] appended. *)
Theorem folder_skipped (E : env)
    (c : string → string → option json → string → M json)
    (item : drive_item) (m : drive_meta) (st : state) :
  already_uploaded item st = Ok false →
  drive_get E (trace st) (item_id item) = Ok m →
  meta_mimeType m = FOLDER_MIME →
  process_item E c item st = (Ok tt, inspected item m st)
  ∧ fs (inspected item m st) = fs st
  ∧ trace (inspected item m st) = trace st ++ [EvGet (item_id item)]
  ∧ local_file_name (frame (inspected item m st))
    = Some (meta_name m +:+ ".pdf").
Proof.
  intros Hseen Hget Hf. split.
  - unfold process_item, item_body.
    rewrite try_except_bind.
    change (set_file_id (item_id item) st) with (Ok tt, entered item st).
    cbv beta iota.
    rewrite try_except_bind, load_uploaded_files_ledger, ledger_entered.
    unfold already_uploaded in Hseen.
    destruct (ledger UPLOADED_FILE_PATH st) as [v|e]; [| done].
    rewrite try_except_bind. unfold lift at 1. rewrite Hseen.
    rewrite try_except_bind. unfold files_get at 1.
    change (trace (entered item st)) with (trace st). rewrite Hget.
    rewrite try_except_bind. unfold set_file_name at 1. cbv beta iota.
    rewrite try_except_bind. unfold set_local_file_name at 1. cbv beta iota.
    rewrite Hf. reflexivity.
  - repeat split. simpl. unfold local_name. by rewrite Hf.
Qed.

Lemma folder_skipped_witness :
  let st' := inspected item_dir meta_folder empty_state in
  already_uploaded item_dir empty_state = Ok false
  ∧ drive_get E_folder (trace empty_state) (item_id item_dir) = Ok meta_folder
  ∧ meta_mimeType meta_folder = FOLDER_MIME
  ∧ process_item E_folder (call_catalog_api E_folder) item_dir empty_state
    = (Ok tt, st')
  ∧ fs st' = fs empty_state
  ∧ trace st' = trace empty_state ++ [EvGet (item_id item_dir)]
  ∧ local_file_name (frame st') = Some (meta_name meta_folder +:+ ".pdf").
Proof.
  split; [reflexivity |]. split; [reflexivity |]. split; [reflexivity |].
  apply (folder_skipped E_folder (call_catalog_api E_folder) item_dir
           meta_folder empty_state); reflexivity.
Defined.

(** X11. A file whose type the table does not know, not yet in the
    Uploaded ledger, is recorded in the Unsupported ledger (a ledger that
    reads as a list) after one metadata request: nothing is fetched and
    nothing is sent. *)
Theorem unsupported_recorded (E : env)
    (c : string → string → option json → string → M json)
    (item : drive_item) (m : drive_meta) (l : list json) (st : state) :
  already_uploaded item st = Ok false →
  drive_get E (trace st) (item_id item) = Ok m →
  get_file_type (export_mime (meta_mimeType m)) = "none" →
  ledger UNSUPPORTED_FILE_PATH st = Ok (JArr l) →
  process_item E c item st
  = (Ok tt,
     saved UNSUPPORTED_FILE_PATH (JArr (with_id (item_id item) l))
       (inspected item m st)).
Proof.
  intros Hseen Hget Hnone Hl.
  assert (Hnf : meta_mimeType m ≠ FOLDER_MIME)
    by (intros Hf; by rewrite Hf in Hnone).
  unfold process_item, item_body.
  rewrite try_except_bind.
  change (set_file_id (item_id item) st) with (Ok tt, entered item st).
  cbv beta iota.
  rewrite try_except_bind, load_uploaded_files_ledger, ledger_entered.
  unfold already_uploaded in Hseen.
  destruct (ledger UPLOADED_FILE_PATH st) as [v|e]; [| done].
  rewrite try_except_bind. unfold lift at 1. rewrite Hseen.
  rewrite try_except_bind. unfold files_get at 1.
  change (trace (entered item st)) with (trace st). rewrite Hget.
  rewrite try_except_bind. unfold set_file_name at 1. cbv beta iota.
  rewrite try_except_bind. unfold set_local_file_name at 1. cbv beta iota.
  apply String.eqb_neq in Hnf. rewrite Hnf, Hnone.
  change (String.eqb "none" "none") with true. cbv iota.
  apply try_except_ok. apply append_file_id_with_id.
  rewrite <- Hl. by apply ledger_ext.
Qed.

Lemma unsupported_recorded_witness :
  already_uploaded item_f2 empty_state = Ok false
  ∧ drive_get E_spec (trace empty_state) (item_id item_f2) = Ok meta_zip
  ∧ get_file_type (export_mime (meta_mimeType meta_zip)) = "none"
  ∧ ledger UNSUPPORTED_FILE_PATH empty_state = Ok (JArr [])
  ∧ process_item E_spec (call_catalog_api E_spec) item_f2 empty_state
    = (Ok tt,
       saved UNSUPPORTED_FILE_PATH (JArr (with_id (item_id item_f2) []))
         (inspected item_f2 meta_zip empty_state)).
Proof.
  split; [reflexivity |]. split; [reflexivity |]. split; [reflexivity |].
  split; [reflexivity |].
  apply (unsupported_recorded E_spec (call_catalog_api E_spec) item_f2
           meta_zip [] empty_state); reflexivity.
Defined.

Lemma apart_ne (a b : string) : apart a b → a ≠ b.
Proof. intros (_ & _ & H) ->. by apply H. Qed.

(** Lines 102-130 for a transfer that completed ([Hdl]) and an upload
    that was answered ([Hup]) with a document from which line 111 extracts
    [file_uid] ([Huid]); further down, for a trigger that was answered
    too ([Hpr]). [st1], [st2] and [st3] are the states after the transfer,
    the upload and the trigger. *)
Section Transfer.
Variable E : env.
Variables (file_id local file_type : string) (rq : media_request).
Variables (st : state) (d : fdata) (uploaded_file file_uid : json).

Let st1 := fetched rq local d st.
Let up := upload_request E local file_type d.
Let st2 := sent up st1.

Hypothesis Hdl : drive_download E (trace st) rq local = DlDone d.
Hypothesis Hup : accepted (http_send E (trace st1) up) uploaded_file.
Hypothesis Huid : file_uid_of uploaded_file = Ok file_uid.

Lemma transfer_until_upload :
  upload_and_process E (call_catalog_api E) file_id local file_type rq st
  = after_upload E file_id local file_uid st2.
Proof.
  unfold upload_and_process.
  rewrite (bind_ok _ _ st tt st1) by (unfold download; by rewrite Hdl).
  erewrite (bind_ok _ _ st1)
    by (unfold process_file_data, bind, read_file; simpl;
        rewrite lookup_insert_eq; reflexivity).
  rewrite (bind_ok _ _ st1 uploaded_file st2)
    by (by apply call_catalog_api_accepted).
  unfold file_uid_of in Huid.
  destruct (py_get uploaded_file "file" (JObj [])) as [f|e] eqn:Hf; [| done].
  rewrite (bind_ok _ _ st2 f st2) by done.
  rewrite (bind_ok _ _ st2 file_uid st2) by (unfold lift; by rewrite Huid).
  reflexivity.
Qed.

Lemma ledger_after_upload path :
  path ≠ local → ledger path st2 = ledger path st.
Proof. intros Hp. apply ledger_ext. simpl. by rewrite lookup_insert_ne. Qed.

Lemma upload_failure_route l :
  truthy file_uid = false →
  local ≠ FAILED_FILE_PATH →
  ledger FAILED_FILE_PATH st = Ok (JArr l) →
  upload_and_process E (call_catalog_api E) file_id local file_type rq st
  = (Ok tt,
     removed local (saved FAILED_FILE_PATH (JArr (with_id file_id l)) st2)).
Proof.
  intros Hf Hne Hl. rewrite transfer_until_upload. unfold after_upload.
  rewrite Hf. change (negb false) with true. cbv iota.
  erewrite bind_ok
    by (apply append_file_id_with_id; by rewrite ledger_after_upload).
  apply os_remove_present. simpl.
  rewrite lookup_insert_ne by done. rewrite lookup_insert_eq. eauto.
Qed.

Variable process_data : json.
Let pr := process_request file_uid.
Let st3 := sent pr st2.
Hypothesis Htruthy : truthy file_uid = true.
Hypothesis Hpr : accepted (http_send E (trace st2) pr) process_data.

Lemma after_upload_until_status status :
  process_status_of process_data = Ok status →
  after_upload E file_id local file_uid st2
  = (if negb (truthy status) then
       append_file_id file_id FAILED_FILE_PATH ;; os_remove local
     else os_remove local ;; append_file_id file_id UPLOADED_FILE_PATH) st3.
Proof.
  intros Hs. unfold after_upload. rewrite Htruthy.
  change (negb true) with false. cbv iota.
  rewrite (bind_ok _ _ st2 process_data st3)
    by (by apply call_catalog_api_accepted).
  unfold process_status_of in Hs.
  destruct (py_get process_data "files" (JArr [JObj []])) as [fl|] eqn:H1;
    [| done].
  destruct (py_index0 fl) as [fst|] eqn:H2; [| done].
  rewrite (bind_ok _ _ st3 fl st3) by done.
  rewrite (bind_ok _ _ st3 fst st3) by (unfold lift; by rewrite H2).
  rewrite (bind_ok _ _ st3 status st3) by (unfold lift; by rewrite Hs).
  reflexivity.
Qed.

Lemma processing_failure_route status l :
  process_status_of process_data = Ok status →
  truthy status = false →
  local ≠ FAILED_FILE_PATH →
  ledger FAILED_FILE_PATH st = Ok (JArr l) →
  upload_and_process E (call_catalog_api E) file_id local file_type rq st
  = (Ok tt,
     removed local (saved FAILED_FILE_PATH (JArr (with_id file_id l)) st3)).
Proof.
  intros Hs Hf Hne Hl.
  rewrite transfer_until_upload, (after_upload_until_status _ Hs), Hf.
  change (negb false) with true. cbv iota.
  erewrite bind_ok
    by (apply append_file_id_with_id; rewrite <- Hl; apply ledger_ext;
        simpl; by rewrite lookup_insert_ne).
  apply os_remove_present. simpl.
  rewrite lookup_insert_ne by done. rewrite lookup_insert_eq. eauto.
Qed.

Lemma success_route status l :
  process_status_of process_data = Ok status →
  truthy status = true →
  local ≠ UPLOADED_FILE_PATH →
  ledger UPLOADED_FILE_PATH st = Ok (JArr l) →
  upload_and_process E (call_catalog_api E) file_id local file_type rq st
  = (Ok tt,
     saved UPLOADED_FILE_PATH (JArr (with_id file_id l)) (removed local st3)).
Proof.
  intros Hs Ht Hne Hl.
  rewrite transfer_until_upload, (after_upload_until_status _ Hs), Ht.
  change (negb true) with false. cbv iota.
  erewrite bind_ok
    by (apply os_remove_present; simpl; rewrite lookup_insert_eq; eauto).
  apply append_file_id_with_id.
  rewrite <- Hl. apply ledger_ext.
  simpl. rewrite lookup_delete_ne by done. by rewrite lookup_insert_ne.
Qed.
End Transfer.

Lemma ledger_saved (path : string) (v : json) (st : state) :
  ledger path (saved path v st) = Ok v.
Proof. unfold saved. rewrite ledger_log. apply ledger_put. Qed.

(** X12. Upload failure: the file was fetched to a local file whose
    name is apart from the Failed ledger's, the upload was answered and
    the answer holds no truthy [fileUid], and the Failed ledger reads as
    a list. The id is recorded in the Failed ledger, then the local file
    is removed, and no trigger is sent: at the end the ledger reads as
    the list with the id and the local file is gone. *)
Theorem upload_failure_recorded (E : env) (file_id local file_type : string)
    (rq : media_request) (st : state) (d : fdata)
    (uploaded_file file_uid : json) (l : list json) :
  let st1 := fetched rq local d st in
  let up := upload_request E local file_type d in
  let st' :=
    removed local
      (saved FAILED_FILE_PATH (JArr (with_id file_id l)) (sent up st1)) in
  drive_download E (trace st) rq local = DlDone d →
  accepted (http_send E (trace st1) up) uploaded_file →
  file_uid_of uploaded_file = Ok file_uid →
  truthy file_uid = false →
  apart local FAILED_FILE_PATH →
  ledger FAILED_FILE_PATH st = Ok (JArr l) →
  upload_and_process E (call_catalog_api E) file_id local file_type rq st
  = (Ok tt, st')
  ∧ ledger FAILED_FILE_PATH st' = Ok (JArr (with_id file_id l))
  ∧ fs st' !! local = None.
Proof.
  intros st1 up st' Hdl Hup Huid Hf Hap Hl.
  apply apart_ne in Hap. split; [| split].
  - by apply (upload_failure_route E file_id local file_type rq st d
                uploaded_file file_uid Hdl Hup Huid l).
  - unfold st', removed. rewrite ledger_log.
    rewrite <- (ledger_saved FAILED_FILE_PATH (JArr (with_id file_id l))
                  (sent up st1)).
    apply ledger_ext. simpl. by rewrite lookup_delete_ne.
  - simpl. apply lookup_delete_eq.
Qed.

Lemma upload_failure_recorded_witness :
  let rq := GetMedia "f1" in
  let d := FText "%PDF-1.7" in
  let answer := JObj [("file", JObj [])] in
  let st1 := fetched rq "report.pdf" d empty_state in
  let up := upload_request E_no_uid "report.pdf" "FILE_TYPE_PDF" d in
  let st' :=
    removed "report.pdf"
      (saved FAILED_FILE_PATH (JArr (with_id "f1" [])) (sent up st1)) in
  drive_download E_no_uid (trace empty_state) rq "report.pdf" = DlDone d
  ∧ accepted (http_send E_no_uid (trace st1) up) answer
  ∧ file_uid_of answer = Ok JNull
  ∧ truthy JNull = false
  ∧ apart "report.pdf" FAILED_FILE_PATH
  ∧ ledger FAILED_FILE_PATH empty_state = Ok (JArr [])
  ∧ upload_and_process E_no_uid (call_catalog_api E_no_uid) "f1"
      "report.pdf" "FILE_TYPE_PDF" rq empty_state = (Ok tt, st')
  ∧ ledger FAILED_FILE_PATH st' = Ok (JArr (with_id "f1" []))
  ∧ fs st' !! "report.pdf" = None.
Proof.
  intros rq d answer st1 up st'.
  assert (Hup : accepted (http_send E_no_uid (trace st1) up) answer).
  { eexists. split; [reflexivity |]. split; [left; reflexivity | reflexivity]. }
  assert (Hap : apart "report.pdf" FAILED_FILE_PATH).
  { split; [reflexivity |]. split; [reflexivity | discriminate]. }
  split; [reflexivity |]. split; [exact Hup |]. split; [reflexivity |].
  split; [reflexivity |]. split; [exact Hap |]. split; [reflexivity |].
  apply (upload_failure_recorded E_no_uid "f1" "report.pdf" "FILE_TYPE_PDF"
           rq empty_state d answer JNull []);
    [reflexivity | exact Hup | reflexivity | reflexivity | exact Hap
    | reflexivity].
Defined.

(** X13. Processing failure: the upload returned an identifier, the
    trigger was answered and the first entry of the answer holds no truthy
    [processStatus]; the local name is apart from the Failed ledger's and
    the ledger reads as a list. The id is recorded in the Failed ledger,
    then the local file is removed: at the end the ledger reads as the
    list with the id and the local file is gone. *)
Theorem processing_failure_recorded (E : env)
    (file_id local file_type : string) (rq : media_request) (st : state)
    (d : fdata) (uploaded_file file_uid process_data status : json)
    (l : list json) :
  let st1 := fetched rq local d st in
  let up := upload_request E local file_type d in
  let pr := process_request file_uid in
  let st' :=
    removed local
      (saved FAILED_FILE_PATH (JArr (with_id file_id l))
         (sent pr (sent up st1))) in
  drive_download E (trace st) rq local = DlDone d →
  accepted (http_send E (trace st1) up) uploaded_file →
  file_uid_of uploaded_file = Ok file_uid →
  truthy file_uid = true →
  accepted (http_send E (trace (sent up st1)) pr) process_data →
  process_status_of process_data = Ok status →
  truthy status = false →
  apart local FAILED_FILE_PATH →
  ledger FAILED_FILE_PATH st = Ok (JArr l) →
  upload_and_process E (call_catalog_api E) file_id local file_type rq st
  = (Ok tt, st')
  ∧ ledger FAILED_FILE_PATH st' = Ok (JArr (with_id file_id l))
  ∧ fs st' !! local = None.
Proof.
  intros st1 up pr st' Hdl Hup Huid Ht Hpr Hs Hf Hap Hl.
  apply apart_ne in Hap. split; [| split].
  - by apply (processing_failure_route E file_id local file_type rq st d
                uploaded_file file_uid Hdl Hup Huid process_data Ht Hpr
                status l).
  - unfold st', removed. rewrite ledger_log.
    rewrite <- (ledger_saved FAILED_FILE_PATH (JArr (with_id file_id l))
                  (sent pr (sent up st1))).
    apply ledger_ext. simpl. by rewrite lookup_delete_ne.
  - simpl. apply lookup_delete_eq.
Qed.

Lemma processing_failure_recorded_witness :
  let rq := GetMedia "f1" in
  let d := FText "%PDF-1.7" in
  let answer := JObj [("file", JObj [("fileUid", JStr "u1")])] in
  let report := JObj [("files", JArr [JObj []])] in
  let st1 := fetched rq "report.pdf" d empty_state in
  let up := upload_request E_no_status "report.pdf" "FILE_TYPE_PDF" d in
  let pr := process_request (JStr "u1") in
  let st' :=
    removed "report.pdf"
      (saved FAILED_FILE_PATH (JArr (with_id "f1" []))
         (sent pr (sent up st1))) in
  drive_download E_no_status (trace empty_state) rq "report.pdf" = DlDone d
  ∧ accepted (http_send E_no_status (trace st1) up) answer
  ∧ file_uid_of answer = Ok (JStr "u1")
  ∧ truthy (JStr "u1") = true
  ∧ accepted (http_send E_no_status (trace (sent up st1)) pr) report
  ∧ process_status_of report = Ok JNull
  ∧ truthy JNull = false
  ∧ apart "report.pdf" FAILED_FILE_PATH
  ∧ ledger FAILED_FILE_PATH empty_state = Ok (JArr [])
  ∧ upload_and_process E_no_status (call_catalog_api E_no_status) "f1"
      "report.pdf" "FILE_TYPE_PDF" rq empty_state = (Ok tt, st')
  ∧ ledger FAILED_FILE_PATH st' = Ok (JArr (with_id "f1" []))
  ∧ fs st' !! "report.pdf" = None.
Proof.
  intros rq d answer report st1 up pr st'.
  assert (Hup : accepted (http_send E_no_status (trace st1) up) answer).
  { eexists. split; [reflexivity |]. split; [left; reflexivity | reflexivity]. }
  assert (Hpr : accepted (http_send E_no_status (trace (sent up st1)) pr)
                  report).
  { eexists. split; [reflexivity |]. split; [left; reflexivity | reflexivity]. }
  assert (Hap : apart "report.pdf" FAILED_FILE_PATH).
  { split; [reflexivity |]. split; [reflexivity | discriminate]. }
  split; [reflexivity |]. split; [exact Hup |]. split; [reflexivity |].
  split; [reflexivity |]. split; [exact Hpr |]. split; [reflexivity |].
  split; [reflexivity |]. split; [exact Hap |]. split; [reflexivity |].
  apply (processing_failure_recorded E_no_status "f1" "report.pdf"
           "FILE_TYPE_PDF" rq empty_state d answer (JStr "u1") report JNull
           []);
    [reflexivity | exact Hup | reflexivity | reflexivity | exact Hpr
    | reflexivity | reflexivity | exact Hap | reflexivity].
Defined.

(** X14. Success: the upload returned an identifier and the trigger a
    status; the local name is apart from the Uploaded ledger's and the
    ledger reads as a list. The local file is removed, then the id is
    recorded in the Uploaded ledger: at the end the ledger reads as the
    list with the id and the local file is gone. *)
Theorem success_recorded (E : env) (file_id local file_type : string)
    (rq : media_request) (st : state) (d : fdata)
    (uploaded_file file_uid process_data status : json) (l : list json) :
  let st1 := fetched rq local d st in
  let up := upload_request E local file_type d in
  let pr := process_request file_uid in
  let st' :=
    saved UPLOADED_FILE_PATH (JArr (with_id file_id l))
      (removed local (sent pr (sent up st1))) in
  drive_download E (trace st) rq local = DlDone d →
  accepted (http_send E (trace st1) up) uploaded_file →
  file_uid_of uploaded_file = Ok file_uid →
  truthy file_uid = true →
  accepted (http_send E (trace (sent up st1)) pr) process_data →
  process_status_of process_data = Ok status →
  truthy status = true →
  apart local UPLOADED_FILE_PATH →
  ledger UPLOADED_FILE_PATH st = Ok (JArr l) →
  upload_and_process E (call_catalog_api E) file_id local file_type rq st
  = (Ok tt, st')
  ∧ ledger UPLOADED_FILE_PATH st' = Ok (JArr (with_id file_id l))
  ∧ fs st' !! local = None.
Proof.
  intros st1 up pr st' Hdl Hup Huid Ht Hpr Hs Hf Hap Hl.
  apply apart_ne in Hap. split; [| split].
  - by apply (success_route E file_id local file_type rq st d
                uploaded_file file_uid Hdl Hup Huid process_data Ht Hpr
                status l).
  - apply ledger_saved.
  - simpl. rewrite lookup_insert_ne by done. apply lookup_delete_eq.
Qed.

Lemma success_recorded_witness :
  let rq := GetMedia "f1" in
  let d := FText "%PDF-1.7" in
  let answer := JObj [("file", JObj [("fileUid", JStr "u1")])] in
  let report :=
    JObj [("files", JArr [JObj [("processStatus", JStr "done")]])] in
  let st1 := fetched rq "report.pdf" d empty_state in
  let up := upload_request E_spec "report.pdf" "FILE_TYPE_PDF" d in
  let pr := process_request (JStr "u1") in
  let st' :=
    saved UPLOADED_FILE_PATH (JArr (with_id "f1" []))
      (removed "report.pdf" (sent pr (sent up st1))) in
  drive_download E_spec (trace empty_state) rq "report.pdf" = DlDone d
  ∧ accepted (http_send E_spec (trace st1) up) answer
  ∧ file_uid_of answer = Ok (JStr "u1")
  ∧ truthy (JStr "u1") = true
  ∧ accepted (http_send E_spec (trace (sent up st1)) pr) report
  ∧ process_status_of report = Ok (JStr "done")
  ∧ truthy (JStr "done") = true
  ∧ apart "report.pdf" UPLOADED_FILE_PATH
  ∧ ledger UPLOADED_FILE_PATH empty_state = Ok (JArr [])
  ∧ upload_and_process E_spec (call_catalog_api E_spec) "f1"
      "report.pdf" "FILE_TYPE_PDF" rq empty_state = (Ok tt, st')
  ∧ ledger UPLOADED_FILE_PATH st' = Ok (JArr (with_id "f1" []))
  ∧ fs st' !! "report.pdf" = None.
Proof.
  intros rq d answer report st1 up pr st'.
  assert (Hup : accepted (http_send E_spec (trace st1) up) answer).
  { eexists. split; [reflexivity |]. split; [left; reflexivity | reflexivity]. }
  assert (Hpr : accepted (http_send E_spec (trace (sent up st1)) pr) report).
  { eexists. split; [reflexivity |]. split; [left; reflexivity | reflexivity]. }
  assert (Hap : apart "report.pdf" UPLOADED_FILE_PATH).
  { split; [reflexivity |]. split; [reflexivity | discriminate]. }
  split; [reflexivity |]. split; [exact Hup |]. split; [reflexivity |].
  split; [reflexivity |]. split; [exact Hpr |]. split; [reflexivity |].
  split; [reflexivity |]. split; [exact Hap |]. split; [reflexivity |].
  apply (success_recorded E_spec "f1" "report.pdf" "FILE_TYPE_PDF" rq
           empty_state d answer (JStr "u1") report (JStr "done") []);
    [reflexivity | exact Hup | reflexivity | reflexivity | exact Hpr
    | reflexivity | reflexivity | exact Hap | reflexivity].
Defined.

(** ** The routes through the handler *)

Lemma try_except_raise {A} (m : M A) h st e s1 :
  m st = (Raise e, s1) → try_except m h st = h e s1.
Proof. intros H. unfold try_except. by rewrite H. Qed.

Lemma handler_removes (e : exn) (local : string) (st : state) :
  bound local st → is_Some (fs st !! local) →
  item_handler e st = (Ok tt, removed local st).
Proof.
  intros ([fid Hid] & [fname Hname] & Hloc) [f Hf].
  unfold item_handler, bind, get_local, path_exists, os_remove, ret.
  rewrite Hname, Hid, Hloc. cbv beta iota.
  rewrite bool_decide_eq_true_2 by eauto. by rewrite Hf.
Qed.

Lemma call_catalog_api_refused E url method data name st :
  (∀ v, ¬ accepted (http_send E (trace st)
                      {| rq_method := method; rq_url := url;
                         rq_json := data |}) v) →
  ∃ e, call_catalog_api E url method data name st
       = (Raise e,
          sent {| rq_method := method; rq_url := url; rq_json := data |} st).
Proof.
  intros Hno. unfold call_catalog_api, bind, requests_request.
  destruct (http_send E _ _) as [r|e] eqn:Hr; [| eauto].
  unfold raise_for_status.
  destruct ((400 <=? status_code r)%Z && (status_code r <? 600)%Z) eqn:Hs;
    [unfold raise; eauto |].
  unfold ret, response_json.
  destruct (body r) as [b|] eqn:Hb; [| unfold raise; eauto].
  destruct (Hno b). exists r. split; [done |]. split; [| done].
  apply andb_false_iff in Hs. lia.
Qed.

(** X15. Failed transfer: when the download breaks after the local file
    was created, the per-file handler removes the partial file and the
    iteration ends normally. Nothing was sent to the Catalog, and every
    file whose name is apart from the local one, the ledgers among them,
    is as it was: the id is recorded nowhere. *)
Theorem fetch_failure_not_recorded (E : env)
    (c : string → string → option json → string → M json)
    (item : drive_item) (m : drive_meta) (partial : fdata) (e : exn)
    (st : state) :
  let local := local_name m in
  let rq := media_request_for (item_id item) (meta_mimeType m) in
  let st0 := inspected item m st in
  let st' := removed local (fetched rq local partial st0) in
  already_uploaded item st = Ok false →
  drive_get E (trace st) (item_id item) = Ok m →
  meta_mimeType m ≠ FOLDER_MIME →
  get_file_type (export_mime (meta_mimeType m)) ≠ "none" →
  drive_download E (trace st0) rq local = DlFail partial e →
  process_item E c item st = (Ok tt, st')
  ∧ fs st' !! local = None
  ∧ (∀ p, apart local p → fs st' !! p = fs st !! p
                        ∧ ledger p st' = ledger p st)
  ∧ http_requests (trace st') = http_requests (trace st).
Proof.
  intros local rq st0 st' Hseen Hget Hnf Hft Hdl.
  split; [| split; [| split]].
  - rewrite (process_item_reaches_transfer _ _ _ m) by done.
    erewrite try_except_raise
      by (unfold upload_and_process; apply bind_raise;
          unfold download; fold st0 rq local; by rewrite Hdl).
    apply handler_removes.
    + repeat split; simpl; eauto.
    + simpl. rewrite lookup_insert_eq. eauto.
  - simpl. apply lookup_delete_eq.
  - intros p Hp. apply apart_ne in Hp.
    assert (Hfs : fs st' !! p = fs st !! p).
    { simpl. rewrite lookup_delete_ne by done.
      by rewrite lookup_insert_ne. }
    split; [done | by apply ledger_ext].
  - unfold http_requests. simpl. rewrite !omap_app. simpl.
    by rewrite !app_nil_r.
Qed.

Lemma fetch_failure_not_recorded_witness :
  let local := local_name meta_pdf in
  let rq := media_request_for (item_id item_f1) (meta_mimeType meta_pdf) in
  let st0 := inspected item_f1 meta_pdf empty_state in
  let st' := removed local (fetched rq local (FText "%PDF") st0) in
  already_uploaded item_f1 empty_state = Ok false
  ∧ drive_get E_fetch_fails (trace empty_state) (item_id item_f1)
    = Ok meta_pdf
  ∧ meta_mimeType meta_pdf ≠ FOLDER_MIME
  ∧ get_file_type (export_mime (meta_mimeType meta_pdf)) ≠ "none"
  ∧ drive_download E_fetch_fails (trace st0) rq local
    = DlFail (FText "%PDF") (RemoteError "HttpError 500")
  ∧ process_item E_fetch_fails (call_catalog_api E_fetch_fails) item_f1
      empty_state = (Ok tt, st')
  ∧ fs st' !! local = None
  ∧ (∀ p, apart local p → fs st' !! p = fs empty_state !! p
                        ∧ ledger p st' = ledger p empty_state)
  ∧ http_requests (trace st') = http_requests (trace empty_state).
Proof.
  split; [reflexivity |]. split; [reflexivity |]. split; [discriminate |].
  split; [vm_compute; discriminate |]. split; [reflexivity |].
  apply (fetch_failure_not_recorded E_fetch_fails
           (call_catalog_api E_fetch_fails) item_f1 meta_pdf (FText "%PDF")
           (RemoteError "HttpError 500") empty_state);
    [reflexivity | reflexivity | discriminate | vm_compute; discriminate
    | reflexivity].
Defined.

(** X16. Refused upload: when the upload request fails, or is answered
    with a status from 400 to 599 or with a body that is not JSON,
    [call_catalog_api] raises; the per-file handler removes the local
    file and the iteration ends normally. The upload is the only request
    sent, and every file whose name is apart from the local one, the
    ledgers among them, is as it was. *)
Theorem upload_error_not_recorded (E : env) (item : drive_item)
    (m : drive_meta) (d : fdata) (st : state) :
  let local := local_name m in
  let file_type := get_file_type (export_mime (meta_mimeType m)) in
  let rq := media_request_for (item_id item) (meta_mimeType m) in
  let st1 := fetched rq local d (inspected item m st) in
  let up := upload_request E local file_type d in
  let st' := removed local (sent up st1) in
  already_uploaded item st = Ok false →
  drive_get E (trace st) (item_id item) = Ok m →
  meta_mimeType m ≠ FOLDER_MIME →
  file_type ≠ "none" →
  drive_download E (trace (inspected item m st)) rq local = DlDone d →
  (∀ v, ¬ accepted (http_send E (trace st1) up) v) →
  process_item E (call_catalog_api E) item st = (Ok tt, st')
  ∧ fs st' !! local = None
  ∧ (∀ p, apart local p → fs st' !! p = fs st !! p
                        ∧ ledger p st' = ledger p st)
  ∧ http_requests (trace st') = http_requests (trace st) ++ [up].
Proof.
  intros local file_type rq st1 up st' Hseen Hget Hnf Hft Hdl Hno.
  split; [| split; [| split]].
  - rewrite (process_item_reaches_transfer _ _ _ m) by done.
    destruct (call_catalog_api_refused E UPLOAD_FILES_URL "POST"
                (rq_json up) "Upload Files" st1 Hno) as [e He].
    erewrite try_except_raise.
    2:{ unfold upload_and_process.
        erewrite bind_ok
          by (unfold download; fold rq local; by rewrite Hdl).
        erewrite bind_ok
          by (unfold process_file_data, bind, read_file; simpl;
              rewrite lookup_insert_eq; reflexivity).
        apply bind_raise. exact He. }
    apply handler_removes.
    + repeat split; simpl; eauto.
    + simpl. rewrite lookup_insert_eq. eauto.
  - simpl. apply lookup_delete_eq.
  - intros p Hp. apply apart_ne in Hp.
    assert (Hfs : fs st' !! p = fs st !! p).
    { simpl. rewrite lookup_delete_ne by done.
      by rewrite lookup_insert_ne. }
    split; [done | by apply ledger_ext].
  - unfold http_requests. simpl. rewrite !omap_app. simpl.
    by rewrite <- !app_assoc.
Qed.

Lemma upload_error_not_recorded_witness :
  let local := local_name meta_pdf in
  let file_type := get_file_type (export_mime (meta_mimeType meta_pdf)) in
  let rq := media_request_for (item_id item_f1) (meta_mimeType meta_pdf) in
  let st1 := fetched rq local (FText "%PDF-1.7")
               (inspected item_f1 meta_pdf empty_state) in
  let up := upload_request E_http_500 local file_type (FText "%PDF-1.7") in
  let st' := removed local (sent up st1) in
  already_uploaded item_f1 empty_state = Ok false
  ∧ drive_get E_http_500 (trace empty_state) (item_id item_f1) = Ok meta_pdf
  ∧ meta_mimeType meta_pdf ≠ FOLDER_MIME
  ∧ file_type ≠ "none"
  ∧ drive_download E_http_500 (trace (inspected item_f1 meta_pdf empty_state))
      rq local = DlDone (FText "%PDF-1.7")
  ∧ (∀ v, ¬ accepted (http_send E_http_500 (trace st1) up) v)
  ∧ process_item E_http_500 (call_catalog_api E_http_500) item_f1 empty_state
    = (Ok tt, st')
  ∧ fs st' !! local = None
  ∧ (∀ p, apart local p → fs st' !! p = fs empty_state !! p
                        ∧ ledger p st' = ledger p empty_state)
  ∧ http_requests (trace st') = http_requests (trace empty_state) ++ [up].
Proof.
  intros local file_type rq st1 up st'.
  assert (Hno : ∀ v, ¬ accepted (http_send E_http_500 (trace st1) up) v).
  { intros v (resp & Hr & Hs & _). vm_compute in Hr.
    injection Hr as <-. simpl in Hs. lia. }
  split; [reflexivity |]. split; [reflexivity |]. split; [discriminate |].
  split; [vm_compute; discriminate |]. split; [reflexivity |].
  split; [exact Hno |].
  apply (upload_error_not_recorded E_http_500 item_f1 meta_pdf
           (FText "%PDF-1.7") empty_state);
    [reflexivity | reflexivity | discriminate | vm_compute; discriminate
    | reflexivity | exact Hno].
Defined.

(** ** C3: the order of recording and removal *)

















(** ** The requests of one iteration *)

Lemma transfer_requests (E : env) (id local ft : string) (rq : media_request)
    (st : state) (r : res unit) (st' : state) :
  bound local st →
  try_except (upload_and_process E (call_catalog_api E) id local ft rq)
    item_handler st = (r, st') →
  ∃ evs, trace st' = trace st ++ evs
    ∧ transfer_exchange E local ft (http_requests evs)
    ∧ (http_requests evs ≠ [] →
       EvDownload rq local (inode_for local st) ∈ evs).
Proof.
  intros (Hid & Hname & Hloc) H.
  destruct Hid as [fid Hid], Hname as [fname Hname].
  unfold_transfer.
  repeat (first
    [ progress (simpl in H; rewrite ?Hid, ?Hname, ?Hloc in H)
    | rewrite lookup_insert in H
    | rewrite lookup_delete in H
    | case_decide
    | head_destruct H ]).
  all: try discriminate.
  all: inversion H; subst; clear H.
  all: new_events.
  all: unfold transfer_exchange, upload_request, process_request; simpl.
  all: split;
    [ first [ by left | right; left; by eexists
            | right; right; by eexists _, _ ]
    | intros Hne; first [ done | set_solver ] ].
Qed.
(** X17. What one iteration sends to the Catalog: nothing, or the upload,
    or the upload and then the trigger, all by POST. Whenever it sends
    anything, the file was not in the Uploaded ledger, its metadata
    arrived, its type is supported, it was fetched to its local name in
    the same iteration, and the first request is the upload of that local
    file under that type. *)
Theorem iteration_requests (E : env) (item : drive_item) (st : state)
    (r : res unit) (st' : state) :
  process_item E (call_catalog_api E) item st = (r, st') →
  ∃ evs, trace st' = trace st ++ evs
    ∧ exchange_shapes (http_requests evs)
    ∧ (http_requests evs ≠ [] →
       ∃ m d, drive_get E (trace st) (item_id item) = Ok m
         ∧ already_uploaded item st = Ok false
         ∧ get_file_type (export_mime (meta_mimeType m)) ≠ "none"
         ∧ EvDownload (media_request_for (item_id item) (meta_mimeType m))
             (local_name m) (inode_for (local_name m) st) ∈ evs
         ∧ head (http_requests evs)
           = Some (upload_request E (local_name m)
                     (get_file_type (export_mime (meta_mimeType m))) d)).
Proof.
  intros H. pose proof (process_item_outcomes _ _ _ _ _ H) as Hout.
  destruct Hout as [e r st' _ Hh | _ | e r st' _ _ Hh | m _ _ _ | m v _ _ _ _
                   | m r st' _ _ _ _ Hh | m st' Hseen Hget Hnf Hft _].
  7:{ rewrite (process_item_reaches_transfer _ _ _ m) in H by done.
      apply transfer_requests in H as (evs & Htr & Hex & Hdl);
        [| repeat split; simpl; eauto].
      exists (EvGet (item_id item) :: evs). split.
      { rewrite Htr. simpl. by rewrite <- app_assoc. }
      change (http_requests (EvGet (item_id item) :: evs))
        with (http_requests evs).
      split.
      - destruct Hex as [-> | [[d ->] | (d & uid & ->)]];
          (split; [repeat constructor | simpl; auto]).
      - intros Hne. destruct Hex as [Hex | [[d Hex] | (d & uid & Hex)]];
          [done | exists m, d | exists m, d];
          (repeat split; [done .. | right; by apply Hdl | by rewrite Hex]). }
  all: try (apply handler_events in Hh as [-> | [l ->]]).
  all: new_events.
  all: by (split; [split; [constructor | by left] |]).
Qed.

Lemma iteration_requests_witness :
  let run := process_item E_spec (call_catalog_api E_spec) item_f1 empty_state in
  run = (Ok tt, snd run)
  ∧ ∃ evs, trace (snd run) = trace empty_state ++ evs
      ∧ exchange_shapes (http_requests evs)
      ∧ (http_requests evs ≠ [] →
         ∃ m d, drive_get E_spec (trace empty_state) (item_id item_f1) = Ok m
           ∧ already_uploaded item_f1 empty_state = Ok false
           ∧ get_file_type (export_mime (meta_mimeType m)) ≠ "none"
           ∧ EvDownload
               (media_request_for (item_id item_f1) (meta_mimeType m))
               (local_name m) (inode_for (local_name m) empty_state) ∈ evs
           ∧ head (http_requests evs)
             = Some (upload_request E_spec (local_name m)
                       (get_file_type (export_mime (meta_mimeType m))) d)).
Proof.
  split; [vm_compute; reflexivity |].
  apply (iteration_requests E_spec item_f1 empty_state (Ok tt)).
  vm_compute; reflexivity.
Defined.

(** ** The checkpoint across a pass *)

Lemma transfer_item_events local rq st st' :
  transfer_outcome local rq st st' →
  ∃ evs, trace st' = trace st ++ evs ∧ Forall item_event evs
         ∧ frame st' = frame st.
Proof.
  intros []; new_events; (split; [| done]);
    repeat (constructor; [simpl; auto |]); constructor.
Qed.

Lemma item_item_events E item st r st' :
  item_outcome E item st r st' →
  ∃ evs, trace st' = trace st ++ evs ∧ Forall item_event evs.
Proof.
  intros [e r0 s0 _ Hh | _ | e r0 s0 _ _ Hh | m _ _ _ | m v _ _ _ _
         | m r0 s0 _ _ _ _ Hh | m s0 _ _ _ _ Ht].
  7:{ apply transfer_item_events in Ht as (evs & -> & Hev & _).
      exists (EvGet (item_id item) :: evs). split.
      - simpl. by rewrite <- app_assoc.
      - by constructor. }
  all: try (apply handler_events in Hh as [-> | [l ->]]).
  all: new_events.
  all: repeat (constructor; [simpl; auto |]); constructor.
Qed.

Lemma for_items_item_events E items st r st' :
  for_items E (call_catalog_api E) items st = (r, st') →
  ∃ evs, trace st' = trace st ++ evs ∧ Forall item_event evs.
Proof.
  revert st. induction items as [|it items IH]; intros st.
  - intros [= <- <-]. exists []. by rewrite app_nil_r.
  - simpl. unfold bind.
    destruct (process_item E (call_catalog_api E) it st) as [[[]|e] s1] eqn:H1;
      apply process_item_outcomes, item_item_events in H1 as (evs1 & H1 & Hev1).
    + intros H2. apply IH in H2 as (evs2 & -> & Hev2).
      exists (evs1 ++ evs2). rewrite H1, <- app_assoc. split; [done |].
      by apply Forall_app.
    + intros [= <- <-]. eauto.
Qed.

Lemma handler_keeps st r st' p :
  handler_outcome st r st' →
  (∀ l, local_file_name (frame st) = Some l → l ≠ p) →
  fs st' !! p = fs st !! p ∧ frame st' = frame st.
Proof.
  intros [| |l Hl _] Hp; [done | done |].
  split; [| done]. simpl. rewrite lookup_delete_ne; [done |]. by apply Hp.
Qed.

(** An iteration leaves alone every file that is no ledger and whose
    name is neither the one the handler holds nor the one of the file at
    hand. *)
Lemma item_keeps E item st r st' p :
  item_outcome E item st r st' →
  p ≠ FAILED_FILE_PATH → p ≠ UPLOADED_FILE_PATH →
  p ≠ UNSUPPORTED_FILE_PATH →
  (∀ l, local_file_name (frame st) = Some l → l ≠ p) →
  (∀ m, drive_get E (trace st) (item_id item) = Ok m → local_name m ≠ p) →
  fs st' !! p = fs st !! p
  ∧ (∀ l, local_file_name (frame st') = Some l → l ≠ p).
Proof.
  intros Hout Hf Hu Hn Hfr Hget.
  destruct Hout as [e r st' _ Hh | _ | e r st' _ _ Hh | m _ Hm _
                   | m v _ Hm _ _ | m r st' _ Hm _ _ Hh
                   | m st' _ Hm _ _ Ht].
  - apply (handler_keeps _ _ _ p) in Hh as [-> ->]; done.
  - done.
  - apply (handler_keeps _ _ _ p) in Hh as [-> ->]; done.
  - split; [done |]. simpl. intros l [= <-]. by apply Hget.
  - split.
    + simpl. by rewrite lookup_insert_ne.
    + simpl. intros l [= <-]. by apply Hget.
  - apply (handler_keeps _ _ _ p) in Hh as [-> ->].
    + split; [done |]. simpl. intros l [= <-]. by apply Hget.
    + simpl. intros l [= <-]. by apply Hget.
  - split.
    + rewrite (transfer_frame _ _ _ _ p Ht); [done | | done | done].
      intros ->. by apply (Hget m).
    + apply transfer_item_events in Ht as (_ & _ & _ & ->).
      simpl. intros l [= <-]. by apply Hget.
Qed.

Lemma for_items_keeps E items st r st' p :
  for_items E (call_catalog_api E) items st = (r, st') →
  p ≠ FAILED_FILE_PATH → p ≠ UPLOADED_FILE_PATH →
  p ≠ UNSUPPORTED_FILE_PATH →
  (∀ l, local_file_name (frame st) = Some l → l ≠ p) →
  (∀ h id m, drive_get E h id = Ok m → local_name m ≠ p) →
  fs st' !! p = fs st !! p.
Proof.
  intros H Hf Hu Hn Hfr Hget. revert st H Hfr.
  induction items as [|it items IH]; intros st H Hfr.
  - by injection H as <- <-.
  - simpl in H. unfold bind in H.
    destruct (process_item E (call_catalog_api E) it st) as [[[]|e] s1] eqn:H1;
      apply process_item_outcomes in H1;
      apply (item_keeps _ _ _ _ _ p) in H1 as [H1 Hfr1]; eauto.
    + rewrite <- H1. by apply IH.
    + by injection H as <- <-.
Qed.

(** X18. With a checkpoint on file (an ASCII text that is not blank),
    one pass of [main] (lines 46-137) leaves it alone, as long as no
    name that comes from Drive, and no name the handler still holds, is
    the one of the checkpoint file: the file is as it was, the pass does
    not read the clock, does not write the checkpoint, and the only
    listing query it makes is bounded by the stored value. *)
Theorem checkpoint_never_advanced (E : env) (s : string) (st : state)
    (r : res unit) (st' : state) :
  content st TIME_FILE_PATH = Some (FText s) →
  ascii_text s = true →
  strip s ≠ "" →
  (∀ l, local_file_name (frame st) = Some l → apart l TIME_FILE_PATH) →
  (∀ h id m, drive_get E h id = Ok m → apart (local_name m) TIME_FILE_PATH) →
  run_once E (call_catalog_api E) st = (r, st') →
  fs st' !! TIME_FILE_PATH = fs st !! TIME_FILE_PATH
  ∧ checkpoint E st' = Some (strip s)
  ∧ ∃ evs, trace st' = trace st ++ evs
      ∧ (∀ d, EvWrite TIME_FILE_PATH d ∉ evs)
      ∧ EvNow ∉ evs
      ∧ (∀ q, EvList q ∈ evs → q = strip s).
Proof.
  intros Hc _ Hne Hfr Hget.
  assert (Hck : checkpoint E st = Some (strip s))
    by (unfold checkpoint; by rewrite Hc).
  assert (Hfs : ∀ s', fs s' !! TIME_FILE_PATH = fs st !! TIME_FILE_PATH →
            checkpoint E s' = Some (strip s)).
  { intros s' Heq. rewrite <- Hck. unfold checkpoint, content. by rewrite Heq. }
  unfold run_once, bind at 1, build.
  destruct (drive_build E (trace st)).
  { intros [= <- <-]. split; [done |]. split; [by apply Hfs |].
    exists [EvBuild]. split; [done |].
    repeat split; intros; set_solver. }
  unfold bind at 1.
  destruct (resolve_checkpoint_outcomes E (log EvBuild st))
    as [(t' & Ht' & _ & ->) | [[Hx | Hx] _]];
    [| unfold checkpoint, content in Hx, Hck; simpl in Hx; congruence ..].
  assert (t' = strip s) as ->
    by (unfold checkpoint, content in Ht', Hck; simpl in Ht'; congruence).
  unfold bind at 1, files_list.
  assert (Hitems : ∀ evs, Forall item_event evs →
            (∀ d, EvWrite TIME_FILE_PATH d ∉ [EvBuild; EvList (strip s)] ++ evs)
            ∧ EvNow ∉ [EvBuild; EvList (strip s)] ++ evs
            ∧ (∀ q, EvList q ∈ [EvBuild; EvList (strip s)] ++ evs
                 → q = strip s)).
  { intros evs Hev. rewrite Forall_forall in Hev.
    repeat split.
    - intros d Hin. apply elem_of_app in Hin as [Hin | Hin]; [set_solver |].
      apply Hev in Hin. destruct d; simpl in Hin; [done |].
      destruct Hin as [? | [? | ?]]; discriminate.
    - intros Hin. apply elem_of_app in Hin as [Hin | Hin]; [set_solver |].
      by apply Hev in Hin.
    - intros q Hin. apply elem_of_app in Hin as [Hin | Hin]; [set_solver |].
      by apply Hev in Hin. }
  destruct (drive_list E _ (strip s)) as [[|it items]|e].
  - intros [= <- <-]. split; [done |]. split; [by apply Hfs |].
    exists ([EvBuild; EvList (strip s)] ++ []). split.
    + simpl. by rewrite <- app_assoc.
    + by apply Hitems.
  - intros H.
    assert (Hkeep : fs st' !! TIME_FILE_PATH = fs st !! TIME_FILE_PATH).
    { apply (for_items_keeps _ _ _ _ _ TIME_FILE_PATH) in H; try done.
      - intros l Hl. by apply apart_ne, Hfr.
      - intros h id m Hm. by apply apart_ne, (Hget h id). }
    split; [done |]. split; [by apply Hfs |].
    apply for_items_item_events in H as (evs & -> & Hev).
    exists ([EvBuild; EvList (strip s)] ++ evs). split.
    + simpl. by rewrite <- !app_assoc.
    + by apply Hitems.
  - intros [= <- <-]. split; [done |]. split; [by apply Hfs |].
    exists ([EvBuild; EvList (strip s)] ++ []). split.
    + simpl. by rewrite <- app_assoc.
    + by apply Hitems.
Qed.

Lemma checkpoint_never_advanced_witness :
  let s := "2024-05-17T08:00:00.000Z" in
  let run := run_once E_spec (call_catalog_api E_spec) stamped_state in
  content stamped_state TIME_FILE_PATH = Some (FText s)
  ∧ ascii_text s = true
  ∧ strip s ≠ ""
  ∧ (∀ l, local_file_name (frame stamped_state) = Some l →
       apart l TIME_FILE_PATH)
  ∧ (∀ h id m, drive_get E_spec h id = Ok m →
       apart (local_name m) TIME_FILE_PATH)
  ∧ run = (Ok tt, snd run)
  ∧ fs (snd run) !! TIME_FILE_PATH = fs stamped_state !! TIME_FILE_PATH
  ∧ checkpoint E_spec (snd run) = Some (strip s)
  ∧ ∃ evs, trace (snd run) = trace stamped_state ++ evs
      ∧ (∀ d, EvWrite TIME_FILE_PATH d ∉ evs)
      ∧ EvNow ∉ evs
      ∧ (∀ q, EvList q ∈ evs → q = strip s).
Proof.
  intros s run.
  assert (Hfr : ∀ l, local_file_name (frame stamped_state) = Some l →
            apart l TIME_FILE_PATH) by (intros l Hl; discriminate Hl).
  assert (Hget : ∀ h id m, drive_get E_spec h id = Ok m →
            apart (local_name m) TIME_FILE_PATH).
  { intros h id m. simpl. unfold drive_of.
    destruct (String.eqb id "f1"); [| destruct (String.eqb id "f2")];
      intros [= <-]; (split; [reflexivity |]);
      (split; [reflexivity | discriminate]). }
  split; [reflexivity |]. split; [reflexivity |]. split; [discriminate |].
  split; [exact Hfr |]. split; [exact Hget |].
  split; [vm_compute; reflexivity |].
  apply (checkpoint_never_advanced E_spec s stamped_state (Ok tt));
    [reflexivity | reflexivity | discriminate | exact Hfr | exact Hget
    | vm_compute; reflexivity].
Defined.

(** ** No stray files *)

Lemma no_new_files_refl st : no_new_files st st.
Proof. intros p. by left. Qed.

Lemma no_new_files_trans st1 st2 st3 :
  no_new_files st1 st2 → no_new_files st2 st3 → no_new_files st1 st3.
Proof.
  intros H1 H2 p Hp. apply H2 in Hp as [Hp | Hp]; [by apply H1 | by right].
Qed.

Ltac fs_cases p Hp :=
  simpl in Hp;
  repeat first
    [ rewrite lookup_delete_eq in Hp; by destruct Hp
    | rewrite lookup_insert_eq in Hp
    | match type of Hp with
      | context [delete ?k _ !! p] =>
          destruct (decide (k = p)) as [<- |];
          [| rewrite (lookup_delete_ne _ k p) in Hp by done]
      | context [<[?k:=_]> _ !! p] =>
          destruct (decide (k = p)) as [<- |];
          [| rewrite (lookup_insert_ne _ k p) in Hp by done]
      end ].

Lemma handler_no_new_files st r st' :
  handler_outcome st r st' → no_new_files st st'.
Proof.
  intros []; intros p Hp; fs_cases p Hp; try (by left).
Qed.

Lemma transfer_no_new_files local rq st st' :
  transfer_outcome local rq st st' → no_new_files st st'.
Proof.
  intros []; intros p Hp; fs_cases p Hp; try (by left);
    try (unfold state_file; by auto).
Qed.

Lemma item_no_new_files E item st r st' :
  item_outcome E item st r st' → no_new_files st st'.
Proof.
  intros [e r0 s0 _ Hh | _ | e r0 s0 _ _ Hh | m _ _ _ | m v _ _ _ _
         | m r0 s0 _ _ _ _ Hh | m s0 _ _ _ _ Ht].
  all: try (apply handler_no_new_files in Hh).
  all: try (apply transfer_no_new_files in Ht).
  all: try exact Hh.
  all: try exact Ht.
  all: try (intros p Hp; by left).
  intros p Hp; fs_cases p Hp; try (by left);
      try (unfold state_file; by auto).
Qed.

Lemma for_items_no_new_files E items st r st' :
  for_items E (call_catalog_api E) items st = (r, st') →
  no_new_files st st'.
Proof.
  revert st. induction items as [|it items IH]; intros st.
  - intros [= <- <-]. apply no_new_files_refl.
  - simpl. unfold bind.
    destruct (process_item E (call_catalog_api E) it st) as [[[]|e] s1] eqn:H1;
      apply process_item_outcomes, item_no_new_files in H1.
    + intros H2. apply IH in H2. by eapply no_new_files_trans.
    + by intros [= <- <-].
Qed.

(** X22. One pass of [main] (lines 46-137) leaves no file behind but
    the four state files: every file that exists when the pass ends,
    normally or not, existed before it started, or is the checkpoint or
    one of the three ledgers. *)
Theorem pass_creates_only_state_files (E : env) (st : state) (r : res unit)
    (st' : state) :
  run_once E (call_catalog_api E) st = (r, st') →
  ∀ p, is_Some (fs st' !! p) → is_Some (fs st !! p) ∨ state_file p.
Proof.
  change (run_once E (call_catalog_api E) st = (r, st')
          → no_new_files st st').
  unfold run_once, bind at 1, build.
  destruct (drive_build E (trace st));
    [intros [= <- <-]; intros p Hp; by left |].
  unfold bind at 1.
  assert (H1 : ∃ t s1, resolve_checkpoint E (log EvBuild st) = (Ok t, s1)
                       ∧ no_new_files st s1).
  { destruct (resolve_checkpoint_outcomes E (log EvBuild st))
      as [(t & _ & _ & ->) | [_ ->]];
      (eexists _, _; split; [done |]); [intros p Hp; by left |].
    intros p Hp; fs_cases p Hp; [right; by left | by left]. }
  destruct H1 as (t & s1 & -> & H1).
  unfold bind at 1, files_list.
  destruct (drive_list E (trace s1) t) as [[|it items]|e];
    [intros [= <- <-]; intros p Hp; by apply H1 |
     | intros [= <- <-]; intros p Hp; by apply H1].
  intros H. apply for_items_no_new_files in H.
  eapply no_new_files_trans; [exact H1 | done].
Qed.

Lemma pass_creates_only_state_files_witness :
  let run := run_once E_spec (call_catalog_api E_spec) empty_state in
  run = (Ok tt, snd run)
  ∧ ∀ p, is_Some (fs (snd run) !! p) →
      is_Some (fs empty_state !! p) ∨ state_file p.
Proof.
  split; [vm_compute; reflexivity |].
  apply (pass_creates_only_state_files E_spec empty_state (Ok tt)).
  vm_compute; reflexivity.
Defined.
